(** * convert_brats2twolabel: BraTS 2021 three-label to two-label conversion

    A shallow embedding of [convert_brats2twolabel.py] and the proofs of the
    properties its specification states.
    The numpy arrays of the script are three-dimensional label volumes.  An
    array is a shape together with its elements in C (row-major) order, as
    numpy stores them.  Elementwise numpy operations broadcast their operands
    and raise [ValueError] when the shapes are incompatible, so they return in
    an error type.  The two scipy.ndimage routines the script calls
    ([binary_fill_holes] and [label], both with their default face-connected
    structuring element) are embedded as the repeated dilations scipy
    computes.  Reading and writing NIfTI files is state passing over the
    files on disk, with what the operating system and nibabel decide (which
    file a path names, what saving to a path does) as part of that state.
    The command line is followed for arguments that are one of the two
    options spelled in full or a value that does not look like an option;
    the theorems about it say so in their hypotheses.
    The first part holds the definitions: the embedding of the script, the
    notions the specification is worded in, and the volumes the theorems are
    tried on.  The second part holds the lemmas and the theorems. *)

From Stdlib Require Import String Ascii List Arith ZArith Lia Bool.
Import ListNotations.

(** * Definitions *)

(** ** Errors *)

(** What the script can raise: numpy's [ValueError] on operands that do not
    broadcast, [FileNotFoundError] on a missing file or directory, nibabel's
    [ImageFileError] on a file name it cannot save an image to, and
    argparse's [SystemExit] on a command line it refuses. *)
Inductive exn : Type :=
| ValueError
| FileNotFoundError
| ImageFileError
| SystemExit.

Inductive result (A : Type) : Type :=
| Ok (a : A)
| Raise (e : exn).

Arguments Ok {A} a.
Arguments Raise {A} e.

Definition bind {A B : Type} (r : result A) (k : A -> result B) : result B :=
  match r with
  | Ok a => k a
  | Raise e => Raise e
  end.

Notation "x <- r ;; k" := (bind r (fun x => k))
  (at level 61, r at next level, right associativity).

(** ** Shapes and voxels *)

Definition shape_t : Type := (nat * nat * nat)%type.
Definition voxel : Type := (nat * nat * nat)%type.

Definition size (sh : shape_t) : nat :=
  let '(X, Y, Z) := sh in X * Y * Z.

Definition inb (sh : shape_t) (v : voxel) : Prop :=
  let '(X, Y, Z) := sh in
  let '(i, j, k) := v in i < X /\ j < Y /\ k < Z.

(** Position of a voxel in the C-ordered buffer, and back. *)
Definition ravel (sh : shape_t) (v : voxel) : nat :=
  let '(_, Y, Z) := sh in
  let '(i, j, k) := v in (i * Y + j) * Z + k.

Definition unravel (sh : shape_t) (n : nat) : voxel :=
  let '(_, Y, Z) := sh in
  (n / (Y * Z), (n / Z) mod Y, n mod Z).

Definition all_idx (sh : shape_t) : list voxel :=
  map (unravel sh) (seq 0 (size sh)).

Definition voxel_eqb (v w : voxel) : bool :=
  let '(i, j, k) := v in
  let '(i', j', k') := w in
  (i =? i') && (j =? j') && (k =? k').

(** ** Arrays *)

Record ndarray (A : Type) : Type := mk_ndarray {
  shape : shape_t;
  data : list A
}.

Arguments mk_ndarray {A} shape data.
Arguments shape {A} n.
Arguments data {A} n.

Definition tabulate {A : Type} (sh : shape_t) (f : voxel -> A) : ndarray A :=
  mk_ndarray sh (map f (all_idx sh)).

(** [a[v]], with [d] standing in where the buffer is too short. *)
Definition vget {A : Type} (d : A) (a : ndarray A) (v : voxel) : A :=
  nth (ravel (shape a) v) (data a) d.

(** An array whose buffer has the length its shape announces. *)
Definition wf {A : Type} (a : ndarray A) : Prop :=
  length (data a) = size (shape a).

(** *** Broadcasting *)

(** numpy's rule for one axis: equal lengths, or one of them is 1. *)
Definition broadcast_dim (x y : nat) : option nat :=
  if x =? y then Some x
  else if x =? 1 then Some y
  else if y =? 1 then Some x
  else None.

Definition broadcast_shapes (s t : shape_t) : option shape_t :=
  let '(X, Y, Z) := s in
  let '(X', Y', Z') := t in
  match broadcast_dim X X', broadcast_dim Y Y', broadcast_dim Z Z' with
  | Some a, Some b, Some c => Some (a, b, c)
  | _, _, _ => None
  end.

(** Along an axis of length 1 a broadcast operand is read at index 0. *)
Definition bidx (sh : shape_t) (v : voxel) : voxel :=
  let '(X, Y, Z) := sh in
  let '(i, j, k) := v in
  (if X =? 1 then 0 else i, if Y =? 1 then 0 else j, if Z =? 1 then 0 else k).

Definition bget {A : Type} (d : A) (a : ndarray A) (v : voxel) : A :=
  vget d a (bidx (shape a) v).

(** A unary elementwise operation ([a == c], [a != c], [np.where(c, x, y)]
    with scalar branches). *)
Definition np_map {A B : Type} (d : A) (f : A -> B) (a : ndarray A) : ndarray B :=
  tabulate (shape a) (fun v => f (vget d a v)).

(** A binary elementwise operation ([&], [|], [np.where] with an array
    branch): the operands are broadcast against each other. *)
Definition np_map2 {A B C : Type} (da : A) (db : B) (f : A -> B -> C)
    (a : ndarray A) (b : ndarray B) : result (ndarray C) :=
  match broadcast_shapes (shape a) (shape b) with
  | Some sh => Ok (tabulate sh (fun v => f (bget da a v) (bget db b v)))
  | None => Raise ValueError
  end.

(** ** Face connectivity *)

(** The six face neighbours of a voxel, as the default structuring element of
    scipy.ndimage ([generate_binary_structure(3, 1)]) visits them; [None] is a
    position outside the array. *)
Definition neighbours (sh : shape_t) (v : voxel) : list (option voxel) :=
  let '(X, Y, Z) := sh in
  let '(i, j, k) := v in
  [ if i =? 0 then None else Some (i - 1, j, k);
    if S i <? X then Some (S i, j, k) else None;
    if j =? 0 then None else Some (i, j - 1, k);
    if S j <? Y then Some (i, S j, k) else None;
    if k =? 0 then None else Some (i, j, k - 1);
    if S k <? Z then Some (i, j, S k) else None ].

(** Two voxels are face-adjacent when they differ by one unit along exactly
    one axis. *)
Definition adj (v w : voxel) : Prop :=
  let '(i, j, k) := v in
  let '(i', j', k') := w in
  (j = j' /\ k = k' /\ (i = S i' \/ i' = S i)) \/
  (i = i' /\ k = k' /\ (j = S j' \/ j' = S j)) \/
  (i = i' /\ j = j' /\ (k = S k' \/ k' = S k)).

(** A voxel of one of the six outer faces of the volume. *)
Definition on_border (sh : shape_t) (v : voxel) : Prop :=
  let '(X, Y, Z) := sh in
  let '(i, j, k) := v in
  i = 0 \/ S i = X \/ j = 0 \/ S j = Y \/ k = 0 \/ S k = Z.

(** ** Binary morphology (scipy.ndimage) *)

(** One round of [binary_dilation] with the face-connected structuring
    element: a voxel is set when it or one of its face neighbours is set,
    positions outside the array counting as [border_value]; only voxels
    where [mask] is true are modified. *)
Definition dilate_step (mask : ndarray bool) (border_value : bool)
    (cur : ndarray bool) : ndarray bool :=
  let sh := shape cur in
  tabulate sh (fun v =>
    if vget false mask v
    then vget false cur v
         || existsb (fun o => match o with
                              | Some w => vget false cur w
                              | None => border_value
                              end) (neighbours sh v)
    else vget false cur v).

(** [binary_dilation(input, iterations=-1, mask=mask, border_value=bv)]: the
    dilation is repeated until the result no longer changes.  Each round that
    changes the array sets at least one more voxel, so one round per voxel
    and one more reach the stable array ([binary_dilation_stable] below). *)
Definition binary_dilation (input mask : ndarray bool) (border_value : bool)
    : ndarray bool :=
  Nat.iter (S (size (shape input))) (dilate_step mask border_value) input.

(** The voxels set in a boolean array. *)
Definition members (a : ndarray bool) : list voxel :=
  filter (vget false a) (all_idx (shape a)).

(** What a repeated masked dilation reaches: the voxels set at the start, the
    mask voxels of the outer faces when the outside counts as set, and every
    mask voxel face-adjacent to a reached voxel. *)
Inductive reach (sh : shape_t) (m : voxel -> bool) (bv : bool)
    (init : voxel -> bool) : voxel -> Prop :=
| reach_init v : inb sh v -> init v = true -> reach sh m bv init v
| reach_border v :
    inb sh v -> m v = true -> bv = true -> on_border sh v -> reach sh m bv init v
| reach_step v w :
    inb sh v -> m v = true -> adj v w -> reach sh m bv init w ->
    reach sh m bv init v.

(** A boolean array that one more round of dilation leaves as it is. *)
Definition closed (mask : ndarray bool) (bv : bool) (a : ndarray bool) : Prop :=
  forall v, inb (shape a) v ->
            vget false (dilate_step mask bv a) v = true -> vget false a v = true.

Open Scope Z_scope.

(** [scipy.ndimage.binary_fill_holes(input)]: the complement of the input is
    invaded from the outside of the array by a dilation of the empty array
    with [border_value = 1], masked by that complement and repeated until
    stable; the holes are what the invasion does not reach. *)
Definition binary_fill_holes (input : ndarray Z) : ndarray bool :=
  let mask := np_map 0 (fun x => x =? 0) input in
  let tmp := tabulate (shape mask) (fun _ => false) in
  let output := binary_dilation tmp mask true in
  np_map false negb output.

(** The array that is set at [v] only. *)
Definition seed (sh : shape_t) (v : voxel) : ndarray bool :=
  tabulate sh (voxel_eqb v).

(** [scipy.ndimage.label]: the voxels are visited in C order; a foreground
    voxel that has no label yet starts a new feature, which takes the next
    number and every foreground voxel joined to it by face-adjacent steps. *)
Fixpoint label_scan (fg : ndarray bool) (todo : list voxel)
    (lab : ndarray nat) (n : nat) : ndarray nat * nat :=
  match todo with
  | [] => (lab, n)
  | v :: rest =>
      if vget false fg v && (vget 0%nat lab v =? 0)%nat then
        let comp := binary_dilation (seed (shape fg) v) fg false in
        label_scan fg rest
          (tabulate (shape fg)
             (fun w => if vget false comp w then S n else vget 0%nat lab w))
          (S n)
      else label_scan fg rest lab n
  end.

Definition ndi_label (input : ndarray Z) : ndarray nat * nat :=
  let fg := np_map 0 (fun x => negb (x =? 0)) input in
  label_scan fg (all_idx (shape input)) (tabulate (shape input) (fun _ => 0%nat)) 0%nat.

(** [np.unique(a, return_counts=True)]: the distinct values of the array in
    increasing order, and how often each occurs. *)
Definition np_unique_counts (a : ndarray nat) : list nat * list nat :=
  let occ := count_occ Nat.eq_dec (data a) in
  let vals := filter (fun x => (0 <? occ x)%nat) (seq 0 (S (list_max (data a)))) in
  (vals, map occ vals).

(** [np.isin(x, values)] for one element. *)
Definition np_isin (x : nat) (values : list nat) : bool :=
  existsb (Nat.eqb x) values.

Definition b2i (b : bool) : Z := if b then 1 else 0.

(** ** The conversion *)

(** Conversion step 2 and 3:
    [NE = np.where(((d_hdglio != 0) & (d_brats == 1)) | (d_brats == 2), 1, 0)] *)
Definition conversion_step_2_3 (d_brats d_hdglio : ndarray Z) : result (ndarray Z) :=
  c1 <- np_map2 false false andb
          (np_map 0 (fun x => negb (x =? 0)) d_hdglio)
          (np_map 0 (fun x => x =? 1) d_brats) ;;
  c2 <- np_map2 false false orb c1 (np_map 0 (fun x => x =? 2) d_brats) ;;
  Ok (np_map false b2i c2).

(** Conversion step 4, the body of [if at_fill:]:
    [AT = np.where(d_brats == 4, 1, 0)],
    [filled_AT = ndi.binary_fill_holes(AT)],
    [enclosed_NCR = np.where((filled_AT == 1) & (AT == 0), 1, 0)],
    [NE = np.where(enclosed_NCR == 1, 0, NE)]. *)
Definition conversion_step_4 (at_fill : bool) (d_brats NE : ndarray Z)
    : result (ndarray Z) :=
  if at_fill then
    let AT := np_map 0 (fun x => b2i (x =? 4)) d_brats in
    let filled_AT := binary_fill_holes AT in
    c <- np_map2 false false andb
           (np_map false (fun b => b2i b =? 1) filled_AT)
           (np_map 0 (fun x => x =? 0) AT) ;;
    let enclosed_NCR := np_map false b2i c in
    np_map2 false 0 (fun e x => if e then 0 else x)
      (np_map 0 (fun x => x =? 1) enclosed_NCR) NE
  else Ok NE.

(** [lbls[(n > threshold) & (lbls > 0)]] *)
Definition lbls_above (threshold : Z) (lbls n : list nat) : list nat :=
  map fst (filter (fun p => (threshold <? Z.of_nat (snd p)) && (0 <? fst p)%nat)
             (combine lbls n)).

(** Conversion step 5 and 6:
    [labelled_NE, nlabels = ndi.label(NE)],
    [lbls, n = np.unique(labelled_NE, return_counts=True)],
    [lbls_above_thr = lbls[(n > threshold) & (lbls > 0)]],
    [NE_out = np.where(np.isin(labelled_NE, lbls_above_thr) | (d_brats == 2), 1, 0)]. *)
Definition conversion_step_5_6 (cluster_size_threshold : Z)
    (d_brats NE : ndarray Z) : result (ndarray Z) :=
  let threshold := cluster_size_threshold in
  let '(labelled_NE, nlabels) := ndi_label NE in
  let '(lbls, n) := np_unique_counts labelled_NE in
  let lbls_above_thr := lbls_above threshold lbls n in
  c <- np_map2 false false orb
         (np_map 0%nat (fun x => np_isin x lbls_above_thr) labelled_NE)
         (np_map 0 (fun x => x =? 2) d_brats) ;;
  Ok (np_map false b2i c).

(** Conversion step 7: [d_out = np.where(d_brats == 4, 2, NE_out)] *)
Definition conversion_step_7 (d_brats NE_out : ndarray Z) : result (ndarray Z) :=
  np_map2 false 0 (fun c x => if c then 2 else x)
    (np_map 0 (fun x => x =? 4) d_brats) NE_out.

Definition convert_data_brats2021_to_twolabel (d_brats d_hdglio : ndarray Z)
    (cluster_size_threshold : Z) (at_fill : bool) : result (ndarray Z) :=
  NE <- conversion_step_2_3 d_brats d_hdglio ;;
  NE <- conversion_step_4 at_fill d_brats NE ;;
  NE_out <- conversion_step_5_6 cluster_size_threshold d_brats NE ;;
  conversion_step_7 d_brats NE_out.

(** ** Files *)

(** Element types the script names.  Label volumes hold integers; the cast
    to [uint8] keeps the low eight bits. *)
Inductive np_dtype : Type :=
| np_uint8
| np_float64.

Definition astype (dt : np_dtype) (a : ndarray Z) : ndarray Z :=
  match dt with
  | np_uint8 => mk_ndarray (shape a) (map (fun x => x mod 256) (data a))
  | np_float64 => a
  end.

(** A NIfTI image: the voxel data, and the affine and header, which the
    script carries along without looking inside. *)
Record Nifti1Header : Type := mk_header {
  data_dtype : np_dtype;
  other_fields : string
}.

Record Nifti1Image : Type := mk_image {
  dataobj : ndarray Z;
  affine : string;
  header : Nifti1Header
}.

Definition set_data_dtype (dt : np_dtype) (h : Nifti1Header) : Nifti1Header :=
  mk_header dt (other_fields h).

(** The files on disk.  A path names a file through the operating system:
    [realpath] gives the file a path leads to, so that two spellings of one
    path name one file, and [stored] holds the images by file.  What
    [nib.save] does with a path and an image is nibabel's and the operating
    system's business: [nib_save] gives it, either the exception raised,
    nothing being written (the directory is missing, the extension is of no
    image format), or the files written with the image each one then holds
    (one file for a NIfTI file name, two for a header and image pair, a
    converted image for the file name of another format). *)
Record filesystem : Type := mk_filesystem {
  stored : string -> option Nifti1Image;
  realpath : string -> string;
  nib_save : string -> Nifti1Image -> result (list (string * Nifti1Image))
}.

(** The image a path leads to; [fs path] stands for it. *)
Definition lookup (fs : filesystem) (path : string) : option Nifti1Image :=
  stored fs (realpath fs path).

Coercion lookup : filesystem >-> Funclass.

Definition store (file : string) (img : Nifti1Image) (fs : filesystem)
    : filesystem :=
  mk_filesystem
    (fun f => if String.eqb f file then Some img else stored fs f)
    (realpath fs) (nib_save fs).

Definition store_all (writes : list (string * Nifti1Image)) (fs : filesystem)
    : filesystem :=
  fold_left (fun acc w => store (fst w) (snd w) acc) writes fs.

(** An image put at a path, as a single file. *)
Definition save (path : string) (img : Nifti1Image) (fs : filesystem) : filesystem :=
  store (realpath fs path) img fs.

(** Code that reads and writes files and may raise: it returns its outcome
    together with the files as they are when it stops. *)
Definition io (A : Type) : Type := filesystem -> result A * filesystem.

Definition io_bind {A B : Type} (m : io A) (k : A -> io B) : io B :=
  fun fs => match m fs with
            | (Ok a, fs') => k a fs'
            | (Raise e, fs') => (Raise e, fs')
            end.

Definition io_lift {A : Type} (r : result A) : io A := fun fs => (r, fs).

Notation "x <~ m ;; k" := (io_bind m (fun x => k))
  (at level 61, m at next level, right associativity).

Definition read_nifti (nifti : string) (dtype : option np_dtype)
    : io (ndarray Z * Nifti1Image) :=
  fun fs =>
    match fs nifti with
    | None => (Raise FileNotFoundError, fs)
    | Some image_in =>
        let volume := dataobj image_in in
        match dtype with
        | Some dt =>
            (Ok (astype dt volume,
                 mk_image (dataobj image_in) (affine image_in)
                   (set_data_dtype dt (header image_in))), fs)
        | None => (Ok (volume, image_in), fs)
        end
    end.

(** [nib.save] comes last: when it raises nothing has been written. *)
Definition write_nifti (template_image : Nifti1Image) (data : ndarray Z)
    (nifti_out : string) (dtype : option np_dtype) : io unit :=
  fun fs =>
    let '(hdr, data) :=
      match dtype with
      | Some dt => (set_data_dtype dt (header template_image), astype dt data)
      | None => (header template_image, data)
      end in
    let image_out := mk_image data (affine template_image) hdr in
    match nib_save fs nifti_out image_out with
    | Raise e => (Raise e, fs)
    | Ok writes => (Ok tt, store_all writes fs)
    end.

(** Line 104 passes [at_fill=True] whatever the caller asked for. *)
Definition convert_file_brats2021_to_twolabel
    (brats_file hdglio_file output_file : string)
    (cluster_size_threshold : Z) (at_fill : bool) : io unit :=
  let dtype := np_uint8 in
  b <~ read_nifti brats_file (Some dtype) ;;
  h <~ read_nifti hdglio_file (Some dtype) ;;
  let '(d_brats, brats_image) := b in
  let '(d_hdglio, hdglio_image) := h in
  d_converted <~ io_lift (convert_data_brats2021_to_twolabel d_brats d_hdglio
                            cluster_size_threshold true) ;;
  write_nifti brats_image d_converted output_file (Some np_uint8).

(** ** Command line *)

(** [bool(s)] on a Python string: true unless the string is empty. *)
Definition py_bool (s : string) : bool :=
  negb (String.length s =? 0)%nat.

Definition digit_of (c : ascii) : option Z :=
  let n := nat_of_ascii c in
  if ((48 <=? n) && (n <=? 57))%nat then Some (Z.of_nat (n - 48)) else None.

Fixpoint digits (s : string) (acc : Z) : option Z :=
  match s with
  | EmptyString => Some acc
  | String c r =>
      match digit_of c with
      | Some d => digits r (10 * acc + d)
      | None => None
      end
  end.

(** ASCII white space, which [int] skips on both sides of a literal. *)
Definition is_space (c : ascii) : bool :=
  let n := nat_of_ascii c in
  ((n =? 32) || ((9 <=? n) && (n <=? 13)))%nat.

Fixpoint all_space (s : string) : bool :=
  match s with
  | EmptyString => true
  | String c r => is_space c && all_space r
  end.

Fixpoint lstrip (s : string) : string :=
  match s with
  | EmptyString => s
  | String c r => if is_space c then lstrip r else s
  end.

(** Where the scan of a literal stands: no digit yet, just after a digit, or
    just after an underscore. *)
Inductive int_state : Type :=
| at_start
| after_digit
| after_underscore.

(** The digits of a literal: decimal digits, single underscores allowed
    between two digits, then white space up to the end. *)
Fixpoint int_body (s : string) (acc : Z) (st : int_state) : option Z :=
  match s with
  | EmptyString =>
      match st with after_digit => Some acc | _ => None end
  | String c r =>
      match digit_of c with
      | Some d => int_body r (10 * acc + d) after_digit
      | None =>
          match st with
          | after_digit =>
              if Ascii.eqb c "_" then int_body r acc after_underscore
              else if is_space c && all_space r then Some acc
              else None
          | _ => None
          end
      end
  end.

(** [int(s)] on a string of ASCII characters: white space, an optional sign,
    the digits, white space. *)
Definition py_int (s : string) : option Z :=
  match lstrip s with
  | EmptyString => None
  | String c r =>
      if Ascii.eqb c "-" then option_map Z.opp (int_body r 0 at_start)
      else if Ascii.eqb c "+" then int_body r 0 at_start
      else int_body (String c r) 0 at_start
  end.

Fixpoint all_digits (s : string) : bool :=
  match s with
  | EmptyString => true
  | String c r =>
      match digit_of c with Some _ => all_digits r | None => false end
  end.

(** Digits, a point, and at least one digit. *)
Fixpoint is_decimal (s : string) : bool :=
  match s with
  | EmptyString => false
  | String c r =>
      if Ascii.eqb c "." then negb (String.length r =? 0)%nat && all_digits r
      else match digit_of c with Some _ => is_decimal r | None => false end
  end.

(** What argparse takes for a negative number: a dash followed by digits, or
    by digits, a point and digits, as in -5, -1.5 and -.5. *)
Definition negative_number (s : string) : bool :=
  match s with
  | String c r =>
      Ascii.eqb c "-"
      && ((negb (String.length r =? 0)%nat && all_digits r) || is_decimal r)
  | EmptyString => false
  end.

(** An argument that argparse takes for an option string rather than for a
    value: it starts with a dash, is longer than the dash, and is not a
    negative number. *)
Definition option_like (s : string) : bool :=
  match s with
  | String c r =>
      Ascii.eqb c "-"
      && negb (String.length r =? 0)%nat
      && negb (negative_number s)
  | EmptyString => false
  end.

Record Namespace : Type := mk_namespace {
  brats_file : string;
  hdglio_file : string;
  output_file : string;
  cluster_size_threshold : Z;
  at_fill : bool
}.

(** The arguments are consumed from left to right.  The two options are
    spelled in full and followed by their value as the next argument, which
    goes through the option's [type]: [int] for [--cluster_size_threshold],
    [bool] for [--at_fill].  The forms of argparse beyond that (an option
    cut short to a prefix, [--option=value], the separator [--], [-h]) are
    not followed: an argument with a leading dash that is neither of the two
    options nor a negative number is refused. *)
Fixpoint parse_loop (argv : list string) (positionals : list string)
    (threshold : Z) (fill : bool) : result (list string * Z * bool) :=
  match argv with
  | [] => Ok (rev positionals, threshold, fill)
  | arg :: rest =>
      if String.eqb arg "--cluster_size_threshold" then
        match rest with
        | value :: rest' =>
            if option_like value then Raise SystemExit
            else match py_int value with
                 | Some n => parse_loop rest' positionals n fill
                 | None => Raise SystemExit
                 end
        | [] => Raise SystemExit
        end
      else if String.eqb arg "--at_fill" then
        match rest with
        | value :: rest' =>
            if option_like value then Raise SystemExit
            else parse_loop rest' positionals threshold (py_bool value)
        | [] => Raise SystemExit
        end
      else if option_like arg then Raise SystemExit
      else parse_loop rest (arg :: positionals) threshold fill
  end.

(** [parser.parse_args()] with the five arguments of [main]; the defaults
    are 50 and [True]. *)
Definition parse_args (argv : list string) : result Namespace :=
  r <- parse_loop argv [] 50 true ;;
  match r with
  | ([b; h; o], threshold, fill) => Ok (mk_namespace b h o threshold fill)
  | _ => Raise SystemExit
  end.

Definition main (argv : list string) : io unit :=
  args <~ io_lift (parse_args argv) ;;
  convert_file_brats2021_to_twolabel
    (brats_file args) (hdglio_file args) (output_file args)
    (cluster_size_threshold args) (at_fill args).

(** * The notions of the specification *)

Close Scope Z_scope.

(** ** Connected components *)

(** [conn sh fg v u]: both voxels are foreground and a chain of face-adjacent
    foreground voxels leads from [v] to [u]. *)
Inductive conn (sh : shape_t) (fg : voxel -> bool) (v : voxel) : voxel -> Prop :=
| conn_refl : inb sh v -> fg v = true -> conn sh fg v v
| conn_step w u :
    conn sh fg v w -> adj w u -> inb sh u -> fg u = true -> conn sh fg v u.

(** The component of [v] has [n] voxels; a background voxel has the empty
    component. *)
Definition component_count (sh : shape_t) (fg : voxel -> bool) (v : voxel)
    (n : nat) : Prop :=
  exists l, NoDup l /\ (forall u, In u l <-> conn sh fg v u) /\ length l = n.

(** The state of the labelling after the voxels [done] have been visited:
    labels are at most [n], a labelled voxel shares its label exactly with
    its component, and every visited foreground voxel is labelled. *)
Definition label_inv (fg : ndarray bool) (done : voxel -> Prop)
    (lab : ndarray nat) (n : nat) : Prop :=
  shape lab = shape fg /\
  (forall w, inb (shape fg) w -> vget 0 lab w <= n) /\
  (forall w u, inb (shape fg) w -> inb (shape fg) u -> vget 0 lab w <> 0 ->
               (vget 0 lab u = vget 0 lab w
                <-> conn (shape fg) (vget false fg) w u)) /\
  (forall w, done w -> inb (shape fg) w -> vget false fg w = true ->
             vget 0 lab w <> 0).

(** The foreground of an integer mask: its nonzero voxels. *)
Definition nonzero (a : ndarray Z) (v : voxel) : bool :=
  negb (vget 0%Z a v =? 0)%Z.

Open Scope Z_scope.

(** The background voxels that a walk over face-adjacent background voxels
    joins to one of the outer faces of the volume. *)
Definition boundary_reachable (sh : shape_t) (bg : voxel -> bool) (v : voxel) : Prop :=
  reach sh bg true (fun _ => false) v.

(** The enhancing-tissue mask of step 4, [np.where(d_brats == 4, 1, 0)]. *)
Definition AT_of (d_brats : ndarray Z) : ndarray Z :=
  np_map 0 (fun x => b2i (x =? 4)) d_brats.

(** ** The stages in sequence *)

(** The mask after step 5 and 6, before the enhancing tissue is inserted. *)
Definition NE_out_of (d_brats d_hdglio : ndarray Z) (cluster_size_threshold : Z)
    (at_fill : bool) : result (ndarray Z) :=
  NE <- conversion_step_2_3 d_brats d_hdglio ;;
  NE <- conversion_step_4 at_fill d_brats NE ;;
  conversion_step_5_6 cluster_size_threshold d_brats NE.

(** ** Enclosure filling *)

(** Hole filling as the specification words it: [Filled] adds to the
    enhancing tissue the background voxels that no walk over face-adjacent
    background voxels joins to the outer boundary; [Enclosed] is what was
    added. *)
Definition Filled (P : ndarray Z) (v : voxel) : Prop :=
  vget 0 P v = 4 \/
  ~ boundary_reachable (shape P) (fun w => negb (vget 0 P w =? 4)) v.

Definition Enclosed (P : ndarray Z) (v : voxel) : Prop :=
  Filled P v /\ vget 0 P v <> 4.

(** ** Label merging *)

Definition binary_valued (x : Z) : Prop := x = 0 \/ x = 1.
Definition two_label_valued (x : Z) : Prop := x = 0 \/ x = 1 \/ x = 2.

(** ** Arguments on the command line *)

(** An argument that is taken as a positional one. *)
Definition positional (s : string) : bool :=
  negb (String.eqb s "--cluster_size_threshold")
  && negb (String.eqb s "--at_fill")
  && negb (option_like s).

(** ** Clusters, relabelling and normal forms *)

(** A voxel of the mask whose cluster has more than [T] voxels. *)
Definition kept (T : Z) (M : ndarray Z) (v : voxel) : Prop :=
  nonzero M v = true /\
  exists n, component_count (shape M) (nonzero M) v n /\ T < Z.of_nat n.

(** What becomes of a primary label taken on its own: enhancing tissue
    becomes 2, edema becomes 1, anything else 0. *)
Definition relabel (x : Z) : Z :=
  if x =? 4 then 2 else if x =? 2 then 1 else 0.

(** A primary volume in which every value other than 1, 2 and 4 has been
    replaced by 0. *)
Definition known_labels_only (P : ndarray Z) : ndarray Z :=
  np_map 0 (fun x => if (x =? 1) || (x =? 2) || (x =? 4) then x else 0) P.

(** An auxiliary volume reduced to 1 inside the tumour and 0 outside. *)
Definition tumour_indicator (A : ndarray Z) : ndarray Z :=
  np_map 0 (fun x => b2i (negb (x =? 0))) A.

(** A value that the cast to [uint8] leaves as it is. *)
Definition uint8_valued (x : Z) : Prop := 0 <= x < 256.

(** ** Paths that are saved to as one file *)

(** [nib.save] writes an image given for this path to the file the path
    names, as it is, and to no other file: the path has a NIfTI file name
    ([.nii], [.nii.gz]) in a directory that can be written to. *)
Definition saved_as_given (fs : filesystem) (path : string) : Prop :=
  forall img, nib_save fs path img = Ok [(realpath fs path, img)].

(** ** Plain command lines *)

(** A character of plain text: printable ASCII or ASCII white space. *)
Definition plain_char (c : ascii) : bool :=
  let n := nat_of_ascii c in
  (((32 <=? n) && (n <=? 126)) || ((9 <=? n) && (n <=? 13)))%nat.

Fixpoint plain_text (s : string) : bool :=
  match s with
  | EmptyString => true
  | String c r => plain_char c && plain_text r
  end.

(** A value for which [py_int] is Python's [int]: plain text, and short
    enough for the limit Python puts on the digits of a literal. *)
Definition plain_value (s : string) : bool :=
  plain_text s && (String.length s <=? 4300)%nat.

(** An argument of a plain command line: one of the two options spelled in
    full, or a plain value that argparse does not take for an option
    string. *)
Definition plain_argument (s : string) : bool :=
  String.eqb s "--cluster_size_threshold" || String.eqb s "--at_fill"
  || (negb (option_like s) && plain_value s).

(** * Volumes and files the theorems are tried on *)

(** A shell of enhancing tissue around one voxel of necrosis, inside the
    auxiliary tumour region. *)
Definition shell_3x3x3 : ndarray Z :=
  tabulate (3, 3, 3)%nat (fun v => if voxel_eqb v (1, 1, 1)%nat then 1 else 4).

Definition tumour_3x3x3 : ndarray Z := tabulate (3, 3, 3)%nat (fun _ => 1).

Definition pocket_kept : ndarray Z :=
  tabulate (3, 3, 3)%nat (fun v => if voxel_eqb v (1, 1, 1)%nat then 1 else 2).

Definition pocket_removed : ndarray Z :=
  tabulate (3, 3, 3)%nat (fun v => if voxel_eqb v (1, 1, 1)%nat then 0 else 2).

(** A working directory without files, in which every path names itself
    and is saved to as one NIfTI file. *)
Definition no_files : filesystem :=
  mk_filesystem (fun _ => None) (fun path => path)
    (fun path img => Ok [(path, img)]).

Definition shell_files : filesystem :=
  save "brats.nii.gz" (mk_image shell_3x3x3 "" (mk_header np_float64 ""))
    (save "hdglio.nii.gz" (mk_image tumour_3x3x3 "" (mk_header np_float64 ""))
       no_files).

(** Three clusters of sizes 2, 4 and 4 in a 2x3x4 volume; one voxel is
    edema. *)
Definition clusters_2x3x4 : ndarray Z :=
  mk_ndarray (2, 3, 4)%nat
    [1; 1; 0; 0;   0; 0; 0; 1;   2; 0; 1; 1;
     0; 0; 0; 0;   1; 0; 0; 0;   1; 1; 0; 1].

Definition tumour_2x3x4 : ndarray Z := tabulate (2, 3, 4)%nat (fun _ => 1).

(** The three clusters without the voxel (0,1,3): the second cluster is left
    with three voxels. *)
Definition clusters_less_one : ndarray Z :=
  mk_ndarray (2, 3, 4)%nat
    [1; 1; 0; 0;   0; 0; 0; 0;   2; 0; 1; 1;
     0; 0; 0; 0;   1; 0; 0; 0;   1; 1; 0; 1].

(** A cluster of ten voxels of necrosis in a row of twelve. *)
Definition row_of_ten : ndarray Z :=
  mk_ndarray (1, 1, 12)%nat [0; 1; 1; 1; 1; 1; 1; 1; 1; 1; 1; 0].

Definition tumour_1x1x12 : ndarray Z := tabulate (1, 1, 12)%nat (fun _ => 1).

(** Two volumes that differ in shape and are converted all the same: the
    auxiliary volume has a single voxel and is broadcast over the primary
    one. *)
Definition primary_2x1x1 : ndarray Z := mk_ndarray (2, 1, 1)%nat [1; 2].
Definition auxiliary_1x1x1 : ndarray Z := mk_ndarray (1, 1, 1)%nat [1].

(** Two volumes whose shapes do not broadcast. *)
Definition primary_3x1x1 : ndarray Z := mk_ndarray (3, 1, 1)%nat [1; 2; 4].
Definition auxiliary_2x1x1 : ndarray Z := mk_ndarray (2, 1, 1)%nat [1; 1].

Definition mismatched_files : filesystem :=
  save "brats.nii.gz" (mk_image primary_3x1x1 "" (mk_header np_float64 ""))
    (save "hdglio.nii.gz" (mk_image auxiliary_2x1x1 "" (mk_header np_float64 ""))
       no_files).

(** * Lemmas and theorems *)

Close Scope Z_scope.

(** ** Index arithmetic *)

Lemma ravel_lt sh v : inb sh v -> ravel sh v < size sh.
Proof.
  destruct sh as [[X Y] Z], v as [[i j] k]. simpl. intros (Hi & Hj & Hk).
  assert (H1 : i * Y + j + 1 <= X * Y) by nia.
  assert (H2 : (i * Y + j + 1) * Z <= X * Y * Z) by (apply Nat.mul_le_mono_r; exact H1).
  nia.
Qed.

Lemma unravel_ravel sh v : inb sh v -> unravel sh (ravel sh v) = v.
Proof.
  destruct sh as [[X Y] Z], v as [[i j] k]. simpl. intros (Hi & Hj & Hk).
  assert (HZ : Z <> 0) by lia. assert (HY : Y <> 0) by lia.
  assert (E1 : ((i * Y + j) * Z + k) / Z = i * Y + j).
  { rewrite Nat.div_add_l by exact HZ. rewrite (Nat.div_small k Z) by exact Hk. lia. }
  assert (E2 : ((i * Y + j) * Z + k) mod Z = k).
  { rewrite Nat.add_comm, Nat.Div0.mod_add. apply Nat.mod_small; exact Hk. }
  assert (E3 : ((i * Y + j) * Z + k) / (Y * Z) = i).
  { rewrite (Nat.mul_comm Y Z), <- Nat.Div0.div_div, E1.
    rewrite Nat.div_add_l by exact HY. rewrite (Nat.div_small j Y) by exact Hj. lia. }
  assert (E4 : (i * Y + j) mod Y = j).
  { rewrite Nat.add_comm, Nat.Div0.mod_add. apply Nat.mod_small; exact Hj. }
  rewrite E1, E2, E3, E4. reflexivity.
Qed.

Lemma ravel_unravel sh n : n < size sh -> ravel sh (unravel sh n) = n.
Proof.
  destruct sh as [[X Y] Z]. simpl. intros Hn.
  assert (HZ : Z <> 0) by (intros ->; lia).
  assert (HY : Y <> 0) by (intros ->; lia).
  pose proof (Nat.div_mod_eq n Z) as D1.
  pose proof (Nat.div_mod_eq (n / Z) Y) as D2.
  assert (D3 : n / (Y * Z) = n / Z / Y).
  { rewrite (Nat.mul_comm Y Z), Nat.Div0.div_div. reflexivity. }
  rewrite D3. nia.
Qed.

Lemma unravel_inb sh n : n < size sh -> inb sh (unravel sh n).
Proof.
  destruct sh as [[X Y] Z]. simpl. intros Hn.
  assert (HZ : Z <> 0) by (intros ->; lia).
  assert (HY : Y <> 0) by (intros ->; lia).
  repeat split.
  - apply Nat.Div0.div_lt_upper_bound. nia.
  - apply Nat.mod_upper_bound; exact HY.
  - apply Nat.mod_upper_bound; exact HZ.
Qed.

Lemma in_all_idx sh v : In v (all_idx sh) <-> inb sh v.
Proof.
  unfold all_idx. rewrite in_map_iff. split.
  - intros (n & <- & Hn). apply in_seq in Hn. apply unravel_inb. lia.
  - intros Hv. exists (ravel sh v). split.
    + apply unravel_ravel; exact Hv.
    + apply in_seq. pose proof (ravel_lt sh v Hv). lia.
Qed.

Lemma NoDup_all_idx sh : NoDup (all_idx sh).
Proof.
  unfold all_idx.
  assert (H : forall l, NoDup l -> (forall n, In n l -> n < size sh) ->
                        NoDup (map (unravel sh) l)).
  { induction l as [|a l IH]; simpl; intros Hnd Hlt; constructor.
    - inversion Hnd as [|? ? Hna _]; subst. intros Hin.
      apply in_map_iff in Hin. destruct Hin as (b & Hb & Hbl).
      apply Hna. replace a with b; [exact Hbl|].
      rewrite <- (ravel_unravel sh b), <- (ravel_unravel sh a) by auto.
      rewrite Hb. reflexivity.
    - inversion Hnd; subst. apply IH; auto. }
  apply H.
  - apply seq_NoDup.
  - intros n Hn. apply in_seq in Hn. lia.
Qed.

Lemma length_all_idx sh : length (all_idx sh) = size sh.
Proof. unfold all_idx. rewrite length_map, length_seq. reflexivity. Qed.

Lemma nth_all_idx sh n d : n < size sh -> nth n (all_idx sh) d = unravel sh n.
Proof.
  intros Hn. unfold all_idx.
  rewrite (nth_indep _ d (unravel sh 0)) by (rewrite length_map, length_seq; exact Hn).
  rewrite map_nth, seq_nth by exact Hn. reflexivity.
Qed.

Lemma wf_tabulate A sh (f : voxel -> A) : wf (tabulate sh f).
Proof. unfold wf, tabulate. simpl. rewrite length_map. apply length_all_idx. Qed.

Lemma shape_tabulate A sh (f : voxel -> A) : shape (tabulate sh f) = sh.
Proof. reflexivity. Qed.

Lemma vget_tabulate A (d : A) sh f v : inb sh v -> vget d (tabulate sh f) v = f v.
Proof.
  intros Hv. unfold vget, tabulate. simpl.
  pose proof (ravel_lt sh v Hv) as Hlt.
  rewrite (nth_indep _ d (f (unravel sh 0))) by (rewrite length_map, length_all_idx; exact Hlt).
  rewrite map_nth. rewrite nth_all_idx by exact Hlt.
  rewrite unravel_ravel by exact Hv. reflexivity.
Qed.

(** Two well-formed arrays of one shape with the same elements are equal. *)
Lemma ndarray_ext A (d : A) (a b : ndarray A) :
  wf a -> wf b -> shape a = shape b ->
  (forall v, inb (shape a) v -> vget d a v = vget d b v) -> a = b.
Proof.
  destruct a as [sa la], b as [sb lb]. unfold wf, vget. simpl.
  intros Ha Hb <- Hext. f_equal.
  apply (nth_ext la lb d d); [congruence|].
  intros n Hn. rewrite Ha in Hn.
  specialize (Hext (unravel sa n) (unravel_inb sa n Hn)).
  rewrite ravel_unravel in Hext by exact Hn. exact Hext.
Qed.

Lemma tabulate_ext A sh (f g : voxel -> A) :
  (forall v, inb sh v -> f v = g v) -> tabulate sh f = tabulate sh g.
Proof.
  intros H. unfold tabulate. f_equal. apply map_ext_in.
  intros v Hv. apply H. apply in_all_idx; exact Hv.
Qed.

Lemma broadcast_dim_same x : broadcast_dim x x = Some x.
Proof. unfold broadcast_dim. rewrite Nat.eqb_refl. reflexivity. Qed.

Lemma broadcast_shapes_same s : broadcast_shapes s s = Some s.
Proof.
  destruct s as [[X Y] Z]. simpl. rewrite !broadcast_dim_same. reflexivity.
Qed.

Lemma bidx_inb sh v : inb sh v -> bidx sh v = v.
Proof.
  destruct sh as [[X Y] Z], v as [[i j] k]. simpl. intros (Hi & Hj & Hk).
  destruct (Nat.eqb_spec X 1), (Nat.eqb_spec Y 1), (Nat.eqb_spec Z 1);
    repeat f_equal; lia.
Qed.

Lemma bget_inb A (d : A) a v : inb (shape a) v -> bget d a v = vget d a v.
Proof. intros H. unfold bget. rewrite bidx_inb by exact H. reflexivity. Qed.

(** ** Face connectivity *)

Lemma adj_sym v w : adj v w -> adj w v.
Proof.
  destruct v as [[i j] k], w as [[i' j'] k']. simpl. intuition lia.
Qed.

Lemma voxel_eqb_eq v w : voxel_eqb v w = true <-> v = w.
Proof.
  destruct v as [[i j] k], w as [[i' j'] k']. simpl.
  rewrite !andb_true_iff, !Nat.eqb_eq. split.
  - intros [[-> ->] ->]. reflexivity.
  - intros H. injection H as -> -> ->. auto.
Qed.

Lemma some_voxel_eq (a b c a' b' c' : nat) :
  a = a' -> b = b' -> c = c' -> Some (a, b, c) = Some (a', b', c').
Proof. intros -> -> ->. reflexivity. Qed.

Ltac same_voxel := solve [apply some_voxel_eq; lia].

Lemma neighbours_some sh v w :
  inb sh v -> (In (Some w) (neighbours sh v) <-> adj v w /\ inb sh w).
Proof.
  destruct sh as [[X Y] Z], v as [[i j] k], w as [[i' j'] k'].
  intros (Hi & Hj & Hk). simpl.
  destruct (Nat.eqb_spec i 0), (Nat.ltb_spec (S i) X),
           (Nat.eqb_spec j 0), (Nat.ltb_spec (S j) Y),
           (Nat.eqb_spec k 0), (Nat.ltb_spec (S k) Z);
    (split;
     [ intros Hin; repeat (destruct Hin as [Hin|Hin]); try discriminate Hin;
       try contradiction; injection Hin as <- <- <-; lia
     | intros [Hadj Hw];
       destruct Hadj as [(?&?&[?|?])|[(?&?&[?|?])|(?&?&[?|?])]];
       try (exfalso; lia);
       repeat (first [ left; same_voxel | right ]); exfalso; lia ]).
Qed.

Lemma neighbours_none sh v :
  inb sh v -> (In None (neighbours sh v) <-> on_border sh v).
Proof.
  destruct sh as [[X Y] Z], v as [[i j] k].
  intros (Hi & Hj & Hk). simpl.
  destruct (Nat.eqb_spec i 0), (Nat.ltb_spec (S i) X),
           (Nat.eqb_spec j 0), (Nat.ltb_spec (S j) Y),
           (Nat.eqb_spec k 0), (Nat.ltb_spec (S k) Z);
    (split;
     [ intros Hin; repeat (destruct Hin as [Hin|Hin]); try discriminate Hin;
       try contradiction; lia
     | intros Hb; try (exfalso; lia);
       repeat (first [ left; reflexivity | right ]); exfalso; lia ]).
Qed.

(** ** Repeated dilation *)

Lemma reach_inb sh m bv init v : reach sh m bv init v -> inb sh v.
Proof. destruct 1; assumption. Qed.

Lemma existsb_ext_in A (f g : A -> bool) l :
  (forall x, In x l -> f x = g x) -> existsb f l = existsb g l.
Proof.
  induction l as [|a l IH]; simpl; intros H; [reflexivity|].
  rewrite (H a) by (left; reflexivity). rewrite IH; [reflexivity|].
  intros x Hx. apply H. right; exact Hx.
Qed.

Section Dilation.
Variable mask : ndarray bool.
Variable bv : bool.

Let step := dilate_step mask bv.
Let m := vget false mask.

Lemma shape_step a : shape (step a) = shape a.
Proof. reflexivity. Qed.

Lemma shape_iter k a : shape (Nat.iter k step a) = shape a.
Proof. induction k as [|k IH]; [reflexivity | exact IH]. Qed.

Lemma step_get a v :
  inb (shape a) v ->
  vget false (step a) v =
  if m v
  then vget false a v
       || existsb (fun o => match o with
                            | Some w => vget false a w
                            | None => bv
                            end) (neighbours (shape a) v)
  else vget false a v.
Proof.
  intros Hv. unfold step, dilate_step. rewrite vget_tabulate by exact Hv.
  reflexivity.
Qed.

Lemma step_mono a v :
  inb (shape a) v -> vget false a v = true -> vget false (step a) v = true.
Proof.
  intros Hv Ha. rewrite step_get by exact Hv. rewrite Ha.
  destruct (m v); reflexivity.
Qed.

Lemma step_ext a b v :
  shape a = shape b ->
  (forall w, inb (shape a) w -> vget false a w = vget false b w) ->
  inb (shape a) v -> vget false (step a) v = vget false (step b) v.
Proof.
  intros Hs Hab Hv. rewrite !step_get by (rewrite <- ?Hs; exact Hv).
  rewrite <- Hs. rewrite (Hab v Hv).
  destruct (m v); [|reflexivity]. f_equal.
  apply existsb_ext_in. intros [w|] Hw; [|reflexivity].
  apply Hab. apply (neighbours_some (shape a) v w Hv). exact Hw.
Qed.

Lemma closed_step a : closed mask bv a -> closed mask bv (step a).
Proof.
  intros Hc v Hv Hss. rewrite shape_step in Hv.
  rewrite (step_ext (step a) a) in Hss; auto.
  intros w Hw. rewrite shape_step in Hw.
  destruct (vget false a w) eqn:Ea.
  - apply step_mono; assumption.
  - destruct (vget false (step a) w) eqn:Es; [|reflexivity].
    rewrite (Hc w Hw Es) in Ea. discriminate Ea.
Qed.

Lemma in_members a v :
  In v (members a) <-> inb (shape a) v /\ vget false a v = true.
Proof. unfold members. rewrite filter_In, in_all_idx. reflexivity. Qed.

Lemma NoDup_members a : NoDup (members a).
Proof. apply NoDup_filter, NoDup_all_idx. Qed.

Lemma length_members a : length (members a) <= size (shape a).
Proof.
  rewrite <- length_all_idx. apply NoDup_incl_length.
  - apply NoDup_members.
  - intros v Hv. apply in_members in Hv. apply in_all_idx. tauto.
Qed.

(** A round either changes nothing or sets a new voxel. *)
Lemma step_progress a :
  closed mask bv a \/ length (members a) < length (members (step a)).
Proof.
  destruct (Nat.le_gt_cases (length (members (step a))) (length (members a)))
    as [Hle|Hgt]; [left|right; exact Hgt].
  assert (Hincl : incl (members (step a)) (members a)).
  { apply NoDup_length_incl.
    - apply NoDup_members.
    - exact Hle.
    - intros v Hv. apply in_members in Hv. apply in_members.
      rewrite shape_step. split; [tauto|]. apply step_mono; tauto. }
  intros v Hv Hs.
  assert (Hin : In v (members (step a))).
  { apply in_members. rewrite shape_step. tauto. }
  apply Hincl, in_members in Hin. tauto.
Qed.

Lemma iter_progress k a :
  closed mask bv (Nat.iter k step a) \/ k <= length (members (Nat.iter k step a)).
Proof.
  induction k as [|k IH]; simpl; [right; lia|].
  destruct IH as [Hc|Hk]; [left; apply closed_step; exact Hc|].
  destruct (step_progress (Nat.iter k step a)) as [Hc|Hlt].
  - left; apply closed_step; exact Hc.
  - right. lia.
Qed.

Lemma iter_closed a : closed mask bv (Nat.iter (S (size (shape a))) step a).
Proof.
  destruct (iter_progress (S (size (shape a))) a) as [Hc|Hk]; [exact Hc|].
  pose proof (length_members (Nat.iter (S (size (shape a))) step a)) as Hl.
  rewrite shape_iter in Hl. lia.
Qed.

Lemma iter_mono k a v :
  inb (shape a) v -> vget false a v = true ->
  vget false (Nat.iter k step a) v = true.
Proof.
  intros Hv Ha. induction k; simpl; [exact Ha|].
  apply step_mono; [rewrite shape_iter; exact Hv | exact IHk].
Qed.

Lemma iter_sound k a v :
  inb (shape a) v -> vget false (Nat.iter k step a) v = true ->
  reach (shape a) m bv (vget false a) v.
Proof.
  revert v. induction k as [|k IH]; simpl; intros v Hv H.
  - apply reach_init; assumption.
  - rewrite step_get in H by (rewrite shape_iter; exact Hv).
    rewrite shape_iter in H.
    destruct (m v) eqn:Em; [|apply IH; assumption].
    apply orb_true_iff in H. destruct H as [H|H]; [apply IH; assumption|].
    apply existsb_exists in H. destruct H as ([w|] & Hin & Hw).
    + apply (neighbours_some (shape a) v w Hv) in Hin. destruct Hin as [Hadj Hwb].
      apply reach_step with w; auto.
    + apply (neighbours_none (shape a) v Hv) in Hin.
      apply reach_border; assumption.
Qed.

Lemma closed_complete a b v :
  shape b = shape a -> closed mask bv b ->
  (forall w, inb (shape a) w -> vget false a w = true -> vget false b w = true) ->
  reach (shape a) m bv (vget false a) v -> vget false b v = true.
Proof.
  intros Hs Hc Hab. induction 1 as [v Hv Hi|v Hv Hm Hbv Hb|v w Hv Hm Hadj Hw IH].
  - apply Hab; assumption.
  - apply Hc; [rewrite Hs; exact Hv|].
    rewrite step_get by (rewrite Hs; exact Hv). fold m. rewrite Hm, Hs.
    apply orb_true_iff. right. apply existsb_exists. exists None.
    split; [apply neighbours_none; assumption | exact Hbv].
  - apply Hc; [rewrite Hs; exact Hv|].
    rewrite step_get by (rewrite Hs; exact Hv). fold m. rewrite Hm, Hs.
    apply orb_true_iff. right. apply existsb_exists. exists (Some w).
    split; [|exact IH].
    apply neighbours_some; [exact Hv|]. split; [exact Hadj|].
    apply reach_inb in Hw. exact Hw.
Qed.

(** The repeated dilation has stopped changing. *)
Lemma binary_dilation_stable a v :
  inb (shape a) v ->
  vget false (step (binary_dilation a mask bv)) v
  = vget false (binary_dilation a mask bv) v.
Proof.
  intros Hv. pose proof (iter_closed a) as Hc.
  unfold binary_dilation. fold step.
  destruct (vget false (Nat.iter (S (size (shape a))) step a) v) eqn:E.
  - apply step_mono; [rewrite shape_iter; exact Hv | exact E].
  - destruct (vget false (step (Nat.iter (S (size (shape a))) step a)) v) eqn:E';
      [|reflexivity].
    apply Hc in E'; [congruence | rewrite shape_iter; exact Hv].
Qed.

(** It computes exactly the reachable voxels. *)
Lemma binary_dilation_reach a v :
  inb (shape a) v ->
  (vget false (binary_dilation a mask bv) v = true
   <-> reach (shape a) m bv (vget false a) v).
Proof.
  intros Hv. unfold binary_dilation. fold step. split.
  - apply iter_sound; exact Hv.
  - apply closed_complete.
    + apply shape_iter.
    + apply iter_closed.
    + intros w Hw Ha. apply iter_mono; assumption.
Qed.

End Dilation.

(** ** Connected components *)

Section Conn.
Variable sh : shape_t.
Variable fg : voxel -> bool.

Lemma conn_start v u : conn sh fg v u -> inb sh v /\ fg v = true.
Proof. induction 1; auto. Qed.

Lemma conn_end v u : conn sh fg v u -> inb sh u /\ fg u = true.
Proof. destruct 1; auto. Qed.

Lemma conn_trans v w u : conn sh fg v w -> conn sh fg w u -> conn sh fg v u.
Proof.
  intros Hvw Hwu. induction Hwu as [|x y Hwx IH Hadj Hy Hfy]; [exact Hvw|].
  apply conn_step with x; assumption.
Qed.

Lemma conn_sym v u : conn sh fg v u -> conn sh fg u v.
Proof.
  induction 1 as [|x y Hvx IH Hadj Hy Hfy]; [apply conn_refl; assumption|].
  apply conn_trans with x; [|exact IH].
  destruct (conn_end v x Hvx) as [Hx Hfx].
  apply conn_step with y; [apply conn_refl; assumption | | exact Hx | exact Hfx].
  apply adj_sym; exact Hadj.
Qed.

Lemma component_count_unique v n n' :
  component_count sh fg v n -> component_count sh fg v n' -> n = n'.
Proof.
  intros (l & Hnd & Hl & <-) (l' & Hnd' & Hl' & <-).
  apply Nat.le_antisymm; apply NoDup_incl_length; try assumption;
    intros u Hu; [apply Hl', Hl | apply Hl, Hl']; exact Hu.
Qed.

Lemma component_count_background v n :
  fg v = false -> component_count sh fg v n -> n = 0.
Proof.
  intros Hv (l & _ & Hl & <-). destruct l as [|u l]; [reflexivity|].
  assert (Hc : conn sh fg v u) by (apply Hl; left; reflexivity).
  apply conn_start in Hc. destruct Hc as [_ Hc]. congruence.
Qed.

End Conn.

Lemma conn_ext sh fg fg' v u :
  (forall w, inb sh w -> fg w = fg' w) -> conn sh fg v u -> conn sh fg' v u.
Proof.
  intros He. induction 1 as [Hv Hf|x y Hvx IH Hadj Hy Hfy].
  - apply conn_refl; [exact Hv|]. rewrite <- He; assumption.
  - apply conn_step with x; auto. rewrite <- He; assumption.
Qed.

Lemma vget_seed sh v u : inb sh u -> vget false (seed sh v) u = voxel_eqb v u.
Proof. intros Hu. unfold seed. apply vget_tabulate; exact Hu. Qed.

(** The dilation of a seed inside the foreground fills its component. *)
Lemma flood_conn (fg : ndarray bool) v u :
  inb (shape fg) v -> vget false fg v = true -> inb (shape fg) u ->
  (vget false (binary_dilation (seed (shape fg) v) fg false) u = true
   <-> conn (shape fg) (vget false fg) v u).
Proof.
  intros Hv Hfv Hu.
  change (shape fg) with (shape (seed (shape fg) v)) at 1.
  rewrite binary_dilation_reach by exact Hu.
  change (shape (seed (shape fg) v)) with (shape fg). clear Hu. split.
  - induction 1 as [x Hx Hi|x Hx Hm Hbv Hb|x w Hx Hm Hadj Hw IH].
    + rewrite vget_seed in Hi by exact Hx. apply voxel_eqb_eq in Hi. subst x.
      apply conn_refl; assumption.
    + discriminate Hbv.
    + apply conn_step with w; auto. apply adj_sym; exact Hadj.
  - induction 1 as [|x y Hvx IH Hadj Hy Hfy].
    + apply reach_init; [exact Hv|]. rewrite vget_seed by exact Hv.
      apply voxel_eqb_eq. reflexivity.
    + apply reach_step with x; auto. apply adj_sym; exact Hadj.
Qed.

(** ** Correctness of the labelling *)

Section Label.
Variable fg : ndarray bool.

Let sh := shape fg.
Let f := vget false fg.

Lemma label_inv_skip done lab n v :
  label_inv fg done lab n ->
  (f v = true -> vget 0 lab v <> 0) ->
  label_inv fg (fun w => done w \/ w = v) lab n.
Proof.
  intros (Hs & Hr & Hc & Hd) Hv. repeat split; auto; try (apply Hc; auto).
  intros w [Hw| ->] Hb Hf; auto.
Qed.

Lemma label_inv_new done lab n v :
  label_inv fg done lab n -> inb sh v -> f v = true -> vget 0 lab v = 0 ->
  label_inv fg (fun w => done w \/ w = v)
    (tabulate sh
       (fun w => if vget false (binary_dilation (seed sh v) fg false) w
                 then S n else vget 0 lab w))
    (S n).
Proof.
  intros (Hs & Hr & Hc & Hd) Hv Hfv Hlv.
  set (comp := binary_dilation (seed sh v) fg false).
  assert (Hcomp : forall u, inb sh u ->
                  (vget false comp u = true <-> conn sh f v u)).
  { intros u Hu. apply flood_conn; assumption. }
  assert (Hold : forall w, inb sh w -> conn sh f v w -> vget 0 lab w = 0).
  { intros w Hw Hvw. destruct (Nat.eq_dec (vget 0 lab w) 0) as [E|E]; [exact E|].
    exfalso. assert (Hwv : vget 0 lab v = vget 0 lab w).
    { apply Hc; auto. apply conn_sym; exact Hvw. }
    congruence. }
  split; [reflexivity|]. split; [|split].
  - intros w Hw. rewrite vget_tabulate by exact Hw.
    destruct (vget false comp w); [lia|]. specialize (Hr w Hw). lia.
  - intros w u Hw Hu. rewrite !vget_tabulate by assumption.
    pose proof (Hcomp w Hw) as Cw. pose proof (Hcomp u Hu) as Cu.
    pose proof (Hr w Hw) as Rw. pose proof (Hr u Hu) as Ru.
    destruct (vget false comp w) eqn:Ew, (vget false comp u) eqn:Eu; intros Hnz.
    + split; [intros _|reflexivity].
      apply conn_trans with v; [apply conn_sym|]; tauto.
    + split; [lia|]. intros Hwu. exfalso.
      assert (Hvu : conn sh f v u) by (apply conn_trans with w; tauto).
      apply Cu in Hvu. discriminate Hvu.
    + split; [lia|]. intros Hwu. exfalso.
      assert (Hvw : conn sh f v w).
      { apply conn_trans with u; [tauto | apply conn_sym; exact Hwu]. }
      apply Cw in Hvw. discriminate Hvw.
    + apply Hc; assumption.
  - intros w [Hw| ->] Hb Hf; rewrite vget_tabulate by assumption.
    + destruct (vget false comp w); [lia|]. apply Hd; assumption.
    + assert (E : vget false comp v = true).
      { apply Hcomp; [exact Hv|]. apply conn_refl; assumption. }
      rewrite E. lia.
Qed.

Lemma label_inv_ext (done done' : voxel -> Prop) lab n :
  (forall w, done' w -> done w) -> label_inv fg done lab n -> label_inv fg done' lab n.
Proof.
  intros Hdd (Hs & Hr & Hc & Hd). repeat split; auto; try (apply Hc; auto).
Qed.

Lemma label_scan_inv todo :
  forall done lab n,
    label_inv fg done lab n -> (forall v, In v todo -> inb sh v) ->
    label_inv fg (fun w => done w \/ In w todo)
      (fst (label_scan fg todo lab n)) (snd (label_scan fg todo lab n)).
Proof.
  induction todo as [|v todo IH]; intros done lab n Hinv Hin; simpl.
  - apply label_inv_ext with done; [tauto | exact Hinv].
  - assert (Hv : inb sh v) by (apply Hin; left; reflexivity).
    assert (Hrest : forall u, In u todo -> inb sh u)
      by (intros u Hu; apply Hin; right; exact Hu).
    destruct (vget false fg v) eqn:Ef;
      [destruct (Nat.eqb_spec (vget 0 lab v) 0) as [E0|E0]|]; simpl.
    + eapply label_inv_ext; [|apply IH; [apply (label_inv_new done lab n v Hinv Hv Ef E0) | exact Hrest]].
      simpl. intros w [Hw|[Hw|Hw]]; auto.
    + eapply label_inv_ext; [|apply IH; [apply (label_inv_skip done lab n v Hinv) | exact Hrest]].
      * simpl. intros w [Hw|[Hw|Hw]]; auto.
      * intros _. exact E0.
    + eapply label_inv_ext; [|apply IH; [apply (label_inv_skip done lab n v Hinv) | exact Hrest]].
      * simpl. intros w [Hw|[Hw|Hw]]; auto.
      * unfold f. rewrite Ef. discriminate.
Qed.

End Label.

Lemma wf_label_scan fg todo :
  forall lab n, wf lab -> wf (fst (label_scan fg todo lab n)).
Proof.
  induction todo as [|v todo IH]; intros lab n Hwf; simpl; [exact Hwf|].
  destruct (vget false fg v && (vget 0 lab v =? 0)); apply IH;
    [apply wf_tabulate | exact Hwf].
Qed.

Lemma vget_np_map A B (d : A) (d' : B) f a v :
  inb (shape a) v -> vget d' (np_map d f a) v = f (vget d a v).
Proof. intros Hv. unfold np_map. apply vget_tabulate; exact Hv. Qed.

(** What [ndi.label] returns: a well-formed array of the input's shape in
    which exactly the nonzero voxels are labelled, two voxels sharing a label
    exactly when they lie in one component. *)
Lemma ndi_label_spec (input : ndarray Z) :
  let lab := fst (ndi_label input) in
  let sh := shape input in
  wf lab /\ shape lab = sh /\
  (forall w, inb sh w -> (vget 0 lab w <> 0 <-> nonzero input w = true)) /\
  (forall w u, inb sh w -> inb sh u -> vget 0 lab w <> 0 ->
               (vget 0 lab u = vget 0 lab w <-> conn sh (nonzero input) w u)).
Proof.
  intros lab sh. unfold ndi_label in lab.
  set (fg := np_map 0%Z (fun x => negb (x =? 0)%Z) input) in *.
  assert (Hfg : forall w, inb sh w -> vget false fg w = nonzero input w).
  { intros w Hw. unfold fg. rewrite vget_np_map by exact Hw. reflexivity. }
  assert (Hinv : label_inv fg (fun w => False \/ In w (all_idx sh)) lab (snd (label_scan fg (all_idx sh) (tabulate sh (fun _ => 0)) 0))).
  { apply label_scan_inv.
    - split; [reflexivity|]. split; [|split].
      + intros w Hw. rewrite vget_tabulate by exact Hw. lia.
      + intros w u Hw Hu Hnz. rewrite vget_tabulate in Hnz by exact Hw.
        congruence.
      + intros w [].
    - intros v Hv. apply in_all_idx; exact Hv. }
  destruct Hinv as (Hs & Hr & Hc & Hd). change (shape fg) with sh in *.
  assert (Hcc : forall w u, inb sh w -> inb sh u -> vget 0 lab w <> 0 ->
               (vget 0 lab u = vget 0 lab w <-> conn sh (nonzero input) w u)).
  { intros w u Hw Hu Hnz. rewrite (Hc w u Hw Hu Hnz). split; apply conn_ext; auto.
    intros x Hx. symmetry. auto. }
  split; [apply wf_label_scan, wf_tabulate|]. split; [exact Hs|]. split; [|exact Hcc].
  intros w Hw. split.
  - intros Hnz. assert (Hww : conn sh (nonzero input) w w) by (apply Hcc; auto).
    apply conn_start in Hww. tauto.
  - intros Hnz. apply Hd; [right; apply in_all_idx; exact Hw | exact Hw|].
    rewrite Hfg by exact Hw. exact Hnz.
Qed.

(** ** Counting labels *)

Lemma count_occ_map_filter A (g : A -> nat) (l : list A) x :
  count_occ Nat.eq_dec (map g l) x = length (filter (fun u => g u =? x) l).
Proof.
  induction l as [|a l IH]; simpl; [reflexivity|].
  destruct (Nat.eq_dec (g a) x) as [E|E].
  - rewrite (proj2 (Nat.eqb_eq _ _) E). simpl. rewrite IH. reflexivity.
  - rewrite (proj2 (Nat.eqb_neq _ _) E). exact IH.
Qed.

Lemma data_tabulate A (d : A) (a : ndarray A) :
  wf a -> data a = map (vget d a) (all_idx (shape a)).
Proof.
  intros Hwf. apply (nth_ext _ _ d (vget d a (unravel (shape a) 0))).
  - rewrite length_map, length_all_idx. exact Hwf.
  - intros n Hn. rewrite Hwf in Hn. rewrite map_nth.
    rewrite nth_all_idx by exact Hn. unfold vget.
    rewrite ravel_unravel by exact Hn. reflexivity.
Qed.

(** The number of voxels carrying the label of [w] is the size of the
    component of [w]. *)
Lemma label_count_component (input : ndarray Z) w :
  let lab := fst (ndi_label input) in
  inb (shape input) w -> vget 0 lab w <> 0 ->
  component_count (shape input) (nonzero input) w
    (count_occ Nat.eq_dec (data lab) (vget 0 lab w)).
Proof.
  intros lab Hw Hnz.
  destruct (ndi_label_spec input) as (Hwf & Hs & Hfg & Hc). fold lab in Hwf, Hs, Hfg, Hc.
  exists (filter (fun u => vget 0 lab u =? vget 0 lab w) (all_idx (shape input))).
  split; [apply NoDup_filter, NoDup_all_idx|]. split.
  - intros u. rewrite filter_In, in_all_idx, Nat.eqb_eq. split.
    + intros [Hu E]. apply Hc; assumption.
    + intros Hwu. pose proof (conn_end _ _ _ _ Hwu) as [Hu _].
      split; [exact Hu|]. apply Hc; assumption.
  - rewrite (data_tabulate _ 0 lab Hwf), count_occ_map_filter, Hs. reflexivity.
Qed.

Lemma component_count_zero sh fg v :
  fg v = false -> component_count sh fg v 0.
Proof.
  intros Hv. exists []. split; [constructor|]. split; [|reflexivity].
  intros u. split; [intros []|]. intros Hc. apply conn_start in Hc.
  destruct Hc as [_ Hc]. congruence.
Qed.

Lemma in_unique_values (a : ndarray nat) x :
  In x (fst (np_unique_counts a)) <-> 0 < count_occ Nat.eq_dec (data a) x.
Proof.
  change (fst (np_unique_counts a))
    with (filter (fun y => 0 <? count_occ Nat.eq_dec (data a) y)
            (seq 0 (S (list_max (data a))))).
  rewrite filter_In, in_seq, Nat.ltb_lt.
  split; [tauto|]. intros Hpos. split; [|exact Hpos].
  apply (count_occ_In Nat.eq_dec) in Hpos.
  assert (Hle : Forall (fun k => k <= list_max (data a)) (data a))
    by (apply list_max_le; lia).
  rewrite Forall_forall in Hle. specialize (Hle x Hpos). lia.
Qed.

Lemma combine_map_self A B (g : A -> B) l :
  combine l (map g l) = map (fun x => (x, g x)) l.
Proof. induction l; simpl; congruence. Qed.

(** The labels that survive the threshold. *)
Lemma in_lbls_above (T : Z) (a : ndarray nat) x :
  In x (lbls_above T (fst (np_unique_counts a)) (snd (np_unique_counts a)))
  <-> 0 < x /\ 0 < count_occ Nat.eq_dec (data a) x
      /\ (T < Z.of_nat (count_occ Nat.eq_dec (data a) x))%Z.
Proof.
  unfold lbls_above.
  assert (E : snd (np_unique_counts a)
              = map (count_occ Nat.eq_dec (data a)) (fst (np_unique_counts a)))
    by reflexivity.
  rewrite E, combine_map_self, in_map_iff. split.
  - intros ([y c] & Hy & Hin). simpl in Hy. subst y.
    apply filter_In in Hin. destruct Hin as [Hin Hp].
    apply in_map_iff in Hin. destruct Hin as (z & Hz & Hin).
    injection Hz as <- <-. apply in_unique_values in Hin. simpl in Hp.
    apply andb_true_iff in Hp. destruct Hp as [Hp1 Hp2].
    apply Z.ltb_lt in Hp1. apply Nat.ltb_lt in Hp2. tauto.
  - intros (Hx & Hpos & HT).
    exists (x, count_occ Nat.eq_dec (data a) x). split; [reflexivity|].
    apply filter_In. split.
    + apply in_map_iff. exists x. split; [reflexivity|].
      apply in_unique_values; exact Hpos.
    + simpl. apply andb_true_iff. split; [apply Z.ltb_lt | apply Nat.ltb_lt]; assumption.
Qed.

Lemma np_isin_true x l : np_isin x l = true <-> In x l.
Proof.
  unfold np_isin. rewrite existsb_exists. split.
  - intros (y & Hy & E). apply Nat.eqb_eq in E. subst; exact Hy.
  - intros H. exists x. split; [exact H | apply Nat.eqb_refl].
Qed.

Open Scope Z_scope.

(** ** The stages, voxel by voxel *)

Lemma np_map2_same A B C (da : A) (db : B) (f : A -> B -> C) a b sh :
  shape a = sh -> shape b = sh ->
  np_map2 da db f a b = Ok (tabulate sh (fun v => f (vget da a v) (vget db b v))).
Proof.
  intros Ha Hb. unfold np_map2. rewrite Ha, Hb, broadcast_shapes_same.
  f_equal. apply tabulate_ext. intros v Hv.
  rewrite !bget_inb by (rewrite ?Ha, ?Hb; exact Hv). reflexivity.
Qed.

Ltac in_shape :=
  solve [ assumption
        | match goal with H : shape _ = _ |- _ => rewrite H; assumption end
        | match goal with H : _ = shape _ |- _ => rewrite <- H; assumption end ].

Ltac read_voxel :=
  repeat first [ rewrite vget_np_map by in_shape
               | rewrite vget_tabulate by in_shape ].

Ltac voxelwise :=
  f_equal; apply tabulate_ext; intros ?v ?Hv; read_voxel.

(** Line 73 on volumes of one shape. *)
Lemma conversion_step_2_3_eq P A :
  shape A = shape P ->
  conversion_step_2_3 P A
  = Ok (tabulate (shape P) (fun v =>
          b2i (negb (vget 0 A v =? 0) && (vget 0 P v =? 1) || (vget 0 P v =? 2)))).
Proof.
  intros Hs. unfold conversion_step_2_3.
  rewrite (np_map2_same _ _ _ _ _ _ _ _ (shape P)) by (simpl; congruence).
  simpl bind.
  rewrite (np_map2_same _ _ _ _ _ _ _ _ (shape P)) by reflexivity.
  simpl bind. unfold np_map at 1. simpl shape.
  voxelwise. reflexivity.
Qed.

Lemma reach_ext sh m m' bv init init' v :
  (forall w, inb sh w -> m w = m' w) ->
  (forall w, inb sh w -> init w = init' w) ->
  reach sh m bv init v -> reach sh m' bv init' v.
Proof.
  intros Hm Hi. induction 1 as [x Hx Hix|x Hx Hmx Hbv Hb|x w Hx Hmx Hadj Hw IH].
  - apply reach_init; [exact Hx|]. rewrite <- Hi; assumption.
  - apply reach_border; auto. rewrite <- Hm; assumption.
  - apply reach_step with w; auto. rewrite <- Hm; assumption.
Qed.

Lemma shape_binary_dilation a mask bv : shape (binary_dilation a mask bv) = shape a.
Proof. apply shape_iter. Qed.

(** [binary_fill_holes] clears exactly the zero voxels that the outside
    reaches. *)
Lemma binary_fill_holes_spec (input : ndarray Z) v :
  inb (shape input) v ->
  (vget false (binary_fill_holes input) v = false
   <-> boundary_reachable (shape input) (fun w => vget 0 input w =? 0) v).
Proof.
  intros Hv. unfold binary_fill_holes, boundary_reachable.
  set (mask := np_map 0 (fun x => x =? 0) input).
  set (tmp := tabulate (shape mask) (fun _ => false)).
  rewrite vget_np_map by (rewrite shape_binary_dilation; exact Hv).
  rewrite negb_false_iff.
  rewrite (binary_dilation_reach mask true tmp v Hv).
  change (shape tmp) with (shape input).
  split; apply reach_ext; intros w Hw; unfold mask, tmp; read_voxel; reflexivity.
Qed.

Lemma shape_binary_fill_holes input : shape (binary_fill_holes input) = shape input.
Proof.
  unfold binary_fill_holes.
  change (shape (np_map false negb ?a)) with (shape a).
  apply shape_binary_dilation.
Qed.

(** Lines 77 to 80 on volumes of one shape. *)
Lemma conversion_step_4_eq P NE :
  shape NE = shape P ->
  conversion_step_4 true P NE
  = Ok (tabulate (shape P) (fun v =>
          if vget false (binary_fill_holes (AT_of P)) v && negb (vget 0 P v =? 4)
          then 0 else vget 0 NE v)).
Proof.
  intros Hs. unfold conversion_step_4. fold (AT_of P).
  rewrite (np_map2_same _ _ _ _ _ _ _ _ (shape P))
    by (first [reflexivity | exact (shape_binary_fill_holes (AT_of P))]).
  simpl bind.
  rewrite (np_map2_same _ _ _ _ _ _ _ _ (shape P)) by (simpl; congruence).
  pose proof (shape_binary_fill_holes (AT_of P)) as Hf.
  change (shape (AT_of P)) with (shape P) in Hf.
  voxelwise. unfold AT_of. read_voxel.
  destruct (vget false (binary_fill_holes (np_map 0 (fun x => b2i (x =? 4)) P)) v),
           (vget 0 P v =? 4); reflexivity.
Qed.

(** Lines 83 to 88 on volumes of one shape. *)
Lemma conversion_step_5_6_eq T P NE :
  shape NE = shape P ->
  conversion_step_5_6 T P NE
  = Ok (tabulate (shape P) (fun v =>
          let labelled_NE := fst (ndi_label NE) in
          let uc := np_unique_counts labelled_NE in
          b2i (np_isin (vget 0%nat labelled_NE v) (lbls_above T (fst uc) (snd uc))
               || (vget 0 P v =? 2)))).
Proof.
  intros Hs. unfold conversion_step_5_6.
  destruct (ndi_label_spec NE) as (Hwf & Hsl & _).
  destruct (ndi_label NE) as [labelled_NE nlabels]. cbn [fst] in *.
  destruct (np_unique_counts labelled_NE) as [lbls n] eqn:Eu. cbn [fst snd].
  rewrite (np_map2_same _ _ _ _ _ _ _ _ (shape P)) by (simpl; congruence).
  simpl bind. unfold np_map at 1. simpl shape.
  assert (Hl : shape labelled_NE = shape P) by congruence.
  voxelwise. reflexivity.
Qed.

(** Line 91 on volumes of one shape. *)
Lemma conversion_step_7_eq P NE_out :
  shape NE_out = shape P ->
  conversion_step_7 P NE_out
  = Ok (tabulate (shape P) (fun v =>
          if vget 0 P v =? 4 then 2 else vget 0 NE_out v)).
Proof.
  intros Hs. unfold conversion_step_7.
  rewrite (np_map2_same _ _ _ _ _ _ _ _ (shape P)) by (simpl; congruence).
  voxelwise. reflexivity.
Qed.

(** Whether the cluster of a voxel survives the threshold, in terms of the
    components of the mask. *)
Lemma retained_iff T (NE : ndarray Z) v :
  let labelled_NE := fst (ndi_label NE) in
  let uc := np_unique_counts labelled_NE in
  inb (shape NE) v ->
  (np_isin (vget 0%nat labelled_NE v) (lbls_above T (fst uc) (snd uc)) = true
   <-> nonzero NE v = true /\
       exists n, component_count (shape NE) (nonzero NE) v n /\ T < Z.of_nat n).
Proof.
  intros labelled_NE uc Hv. unfold uc.
  rewrite np_isin_true, in_lbls_above.
  destruct (ndi_label_spec NE) as (Hwf & Hs & Hfg & Hc).
  fold labelled_NE in Hwf, Hs, Hfg, Hc.
  split.
  - intros (Hpos & _ & HT).
    assert (Hnz : vget 0%nat labelled_NE v <> 0%nat) by lia.
    split; [apply Hfg; assumption|].
    eexists. split; [apply label_count_component; assumption | exact HT].
  - intros (Hnz & n & Hn & HT). apply Hfg in Hnz; [|exact Hv].
    pose proof (label_count_component NE v Hv Hnz) as Hn'.
    fold labelled_NE in Hn'.
    rewrite (component_count_unique _ _ _ _ _ Hn Hn') in HT.
    assert (Hin : In v (all_idx (shape NE))) by (apply in_all_idx; exact Hv).
    split; [lia|]. split; [|exact HT].
    apply (count_occ_In Nat.eq_dec).
    rewrite (data_tabulate _ 0%nat labelled_NE Hwf), Hs.
    apply in_map. exact Hin.
Qed.

(** ** Shapes through the conversion *)

Lemma broadcast_dim_absorb x y z :
  broadcast_dim x y = Some z ->
  broadcast_dim z y = Some z /\ broadcast_dim y z = Some z.
Proof.
  unfold broadcast_dim.
  destruct (Nat.eqb_spec x y), (Nat.eqb_spec x 1), (Nat.eqb_spec y 1);
    intros H; try discriminate H; injection H as <-;
    rewrite ?Nat.eqb_refl; auto;
    repeat match goal with
           | |- context [(?a =? ?b)%nat] => destruct (Nat.eqb_spec a b)
           end; auto; try congruence; lia.
Qed.

Lemma broadcast_shapes_absorb s t u :
  broadcast_shapes s t = Some u ->
  broadcast_shapes u t = Some u /\ broadcast_shapes t u = Some u.
Proof.
  destruct s as [[X Y] Z], t as [[X' Y'] Z'], u as [[a b] c]. simpl.
  destruct (broadcast_dim X X') as [a'|] eqn:E1; [|discriminate].
  destruct (broadcast_dim Y Y') as [b'|] eqn:E2; [|discriminate].
  destruct (broadcast_dim Z Z') as [c'|] eqn:E3; [|discriminate].
  intros H. injection H as -> -> ->.
  apply broadcast_dim_absorb in E1, E2, E3.
  destruct E1 as [-> ->], E2 as [-> ->], E3 as [-> ->]. auto.
Qed.

Lemma np_map2_ok A B C (da : A) (db : B) (f : A -> B -> C) a b u :
  broadcast_shapes (shape a) (shape b) = Some u ->
  exists c, np_map2 da db f a b = Ok c /\ shape c = u.
Proof. intros H. unfold np_map2. rewrite H. eexists; split; reflexivity. Qed.

Ltac shape_simpl := repeat change (shape (np_map _ _ ?x)) with (shape x).

Ltac run_map2 u :=
  match goal with
  | |- context [np_map2 ?da ?db ?f ?a ?b] =>
      let c := fresh "c" in
      let E := fresh "E" in
      let Hc := fresh "Hc" in
      destruct (np_map2_ok _ _ _ da db f a b u) as (c & E & Hc);
      [ shape_simpl
      | rewrite E; simpl bind ]
  end.

Lemma conversion_step_2_3_shapes P A :
  match broadcast_shapes (shape A) (shape P) with
  | None => conversion_step_2_3 P A = Raise ValueError
  | Some u => exists NE, conversion_step_2_3 P A = Ok NE /\ shape NE = u
  end.
Proof.
  unfold conversion_step_2_3.
  destruct (broadcast_shapes (shape A) (shape P)) as [u|] eqn:Eb.
  - destruct (broadcast_shapes_absorb _ _ _ Eb) as [Hup Hpu].
    run_map2 u; [exact Eb|].
    run_map2 u; [rewrite Hc; exact Hup|].
    eexists; split; [reflexivity | exact Hc0].
  - unfold np_map2 at 1. shape_simpl.
    rewrite Eb. reflexivity.
Qed.

Lemma conversion_step_4_shapes at_fill P NE u :
  shape NE = u -> broadcast_shapes (shape P) u = Some u ->
  exists M1, conversion_step_4 at_fill P NE = Ok M1 /\ shape M1 = u.
Proof.
  intros Hs Hpu. unfold conversion_step_4.
  destruct at_fill; [|eexists; split; [reflexivity | exact Hs]].
  run_map2 (shape P).
  { rewrite shape_binary_fill_holes. apply broadcast_shapes_same. }
  apply np_map2_ok. shape_simpl.
  rewrite Hc, Hs. exact Hpu.
Qed.

Lemma conversion_step_5_6_shapes T P NE u :
  shape NE = u -> broadcast_shapes u (shape P) = Some u ->
  exists M2, conversion_step_5_6 T P NE = Ok M2 /\ shape M2 = u.
Proof.
  intros Hs Hup. unfold conversion_step_5_6.
  destruct (ndi_label_spec NE) as (_ & Hsl & _).
  destruct (ndi_label NE) as [labelled_NE nlabels]. cbn [fst] in Hsl.
  destruct (np_unique_counts labelled_NE) as [lbls n].
  run_map2 u; [rewrite Hsl, Hs; exact Hup|].
  eexists; split; [reflexivity | exact Hc].
Qed.

Lemma conversion_step_7_shapes P NE_out u :
  shape NE_out = u -> broadcast_shapes (shape P) u = Some u ->
  exists D, conversion_step_7 P NE_out = Ok D /\ shape D = u.
Proof.
  intros Hs Hpu. unfold conversion_step_7. apply np_map2_ok.
  shape_simpl. rewrite Hs. exact Hpu.
Qed.

(** The conversion fails exactly on operands that do not broadcast, and
    otherwise returns a volume of the broadcast shape. *)
Lemma convert_data_shapes P A T at_fill :
  match broadcast_shapes (shape A) (shape P) with
  | None => convert_data_brats2021_to_twolabel P A T at_fill = Raise ValueError
  | Some u => exists D, convert_data_brats2021_to_twolabel P A T at_fill = Ok D
                        /\ shape D = u
  end.
Proof.
  unfold convert_data_brats2021_to_twolabel.
  pose proof (conversion_step_2_3_shapes P A) as H23.
  destruct (broadcast_shapes (shape A) (shape P)) as [u|] eqn:Eb;
    [|rewrite H23; reflexivity].
  destruct (broadcast_shapes_absorb _ _ _ Eb) as [Hup Hpu].
  destruct H23 as (NE & -> & HNE). simpl bind.
  destruct (conversion_step_4_shapes at_fill P NE u HNE Hpu) as (M1 & -> & HM1).
  simpl bind.
  destruct (conversion_step_5_6_shapes T P M1 u HM1 Hup) as (M2 & -> & HM2).
  simpl bind.
  apply conversion_step_7_shapes; assumption.
Qed.

(** ** The stages in sequence *)

Lemma convert_data_via_NE_out P A T fill :
  convert_data_brats2021_to_twolabel P A T fill
  = (NE_out <- NE_out_of P A T fill ;; conversion_step_7 P NE_out).
Proof.
  unfold convert_data_brats2021_to_twolabel, NE_out_of.
  destruct (conversion_step_2_3 P A) as [M0|e]; [simpl|reflexivity].
  destruct (conversion_step_4 fill P M0) as [M1|e]; reflexivity.
Qed.

Lemma conversion_step_4_disabled P NE : conversion_step_4 false P NE = Ok NE.
Proof. reflexivity. Qed.

Lemma b2i_cases b : b2i b = 0 \/ b2i b = 1.
Proof. destruct b; auto. Qed.

Lemma b2i_one b : b2i b = 1 <-> b = true.
Proof. destruct b; simpl; split; congruence. Qed.

Lemma vget_step_5_6 T P NE M2 v :
  shape NE = shape P -> conversion_step_5_6 T P NE = Ok M2 -> inb (shape P) v ->
  vget 0 M2 v
  = b2i (np_isin (vget 0%nat (fst (ndi_label NE)) v)
           (lbls_above T (fst (np_unique_counts (fst (ndi_label NE))))
                         (snd (np_unique_counts (fst (ndi_label NE)))))
         || (vget 0 P v =? 2)).
Proof.
  intros Hs E Hv. rewrite conversion_step_5_6_eq in E by exact Hs.
  injection E as <-. rewrite vget_tabulate by exact Hv. reflexivity.
Qed.

Lemma vget_step_7 P NE_out D v :
  shape NE_out = shape P -> conversion_step_7 P NE_out = Ok D -> inb (shape P) v ->
  vget 0 D v = if vget 0 P v =? 4 then 2 else vget 0 NE_out v.
Proof.
  intros Hs E Hv. rewrite conversion_step_7_eq in E by exact Hs.
  injection E as <-. rewrite vget_tabulate by exact Hv. reflexivity.
Qed.

(** On two volumes of one shape every stage succeeds and keeps the shape. *)
Lemma stages_same_shape P A T fill :
  shape A = shape P ->
  exists M0 M1 M2 D,
    conversion_step_2_3 P A = Ok M0 /\ shape M0 = shape P /\
    conversion_step_4 fill P M0 = Ok M1 /\ shape M1 = shape P /\
    conversion_step_5_6 T P M1 = Ok M2 /\ shape M2 = shape P /\
    conversion_step_7 P M2 = Ok D /\ shape D = shape P /\
    NE_out_of P A T fill = Ok M2 /\
    convert_data_brats2021_to_twolabel P A T fill = Ok D.
Proof.
  intros Hs. pose proof (broadcast_shapes_same (shape P)) as Hb.
  pose proof (conversion_step_2_3_shapes P A) as H23. rewrite Hs, Hb in H23.
  destruct H23 as (M0 & E0 & H0).
  destruct (conversion_step_4_shapes fill P M0 (shape P) H0 Hb) as (M1 & E1 & H1).
  destruct (conversion_step_5_6_shapes T P M1 (shape P) H1 Hb) as (M2 & E2 & H2).
  destruct (conversion_step_7_shapes P M2 (shape P) H2 Hb) as (D & E3 & H3).
  exists M0, M1, M2, D.
  assert (EN : NE_out_of P A T fill = Ok M2).
  { unfold NE_out_of. rewrite E0. simpl. rewrite E1. simpl. exact E2. }
  repeat (split; [assumption|]).
  rewrite convert_data_via_NE_out, EN. simpl. exact E3.
Qed.

(** ** The conversion on small volumes *)

Example label_clusters :
  ndi_label clusters_2x3x4
  = (mk_ndarray (2, 3, 4)%nat
       [1; 1; 0; 0;   0; 0; 0; 2;   3; 0; 2; 2;
        0; 0; 0; 0;   3; 0; 0; 0;   3; 3; 0; 2]%nat, 3%nat).
Proof. vm_compute. reflexivity. Qed.

Example unique_counts_clusters :
  np_unique_counts (fst (ndi_label clusters_2x3x4))
  = ([0; 1; 2; 3]%nat, [14; 2; 4; 4]%nat).
Proof. vm_compute. reflexivity. Qed.

Example fill_holes_shell :
  binary_fill_holes (AT_of shell_3x3x3) = tabulate (3, 3, 3)%nat (fun _ => true).
Proof. vm_compute. reflexivity. Qed.

(** A cluster of ten voxels is removed under threshold 50 and survives
    under threshold 5. *)
Example small_cluster_removed :
  convert_data_brats2021_to_twolabel row_of_ten tumour_1x1x12 50 true
  = Ok (tabulate (1, 1, 12)%nat (fun _ => 0)).
Proof. vm_compute. reflexivity. Qed.

Example small_cluster_survives :
  convert_data_brats2021_to_twolabel row_of_ten tumour_1x1x12 5 true
  = Ok row_of_ten.
Proof. vm_compute. reflexivity. Qed.

(** * The properties of the specification *)

(** ** Mask combination *)

(** C3. On two volumes of one shape the candidate mask of step 2 and 3 is
    set at a voxel exactly when the auxiliary volume is nonzero and the
    primary volume is 1 there, or the primary volume is 2 there; it is 0
    elsewhere, and depends on no other voxel: changing the inputs elsewhere
    leaves the mask at that voxel as it is. *)
Theorem mask_combiner_pointwise (P A : ndarray Z) (Hs : shape A = shape P) :
  exists M0,
    conversion_step_2_3 P A = Ok M0 /\ shape M0 = shape P /\
    (forall v, inb (shape P) v ->
       (vget 0 M0 v = 1 <->
        (vget 0 A v <> 0 /\ vget 0 P v = 1) \/ vget 0 P v = 2) /\
       (vget 0 M0 v = 0 <->
        ~ ((vget 0 A v <> 0 /\ vget 0 P v = 1) \/ vget 0 P v = 2))) /\
    (forall P' A' M0' v,
       shape P' = shape P -> shape A' = shape P ->
       conversion_step_2_3 P' A' = Ok M0' -> inb (shape P) v ->
       vget 0 P' v = vget 0 P v -> vget 0 A' v = vget 0 A v ->
       vget 0 M0' v = vget 0 M0 v).
Proof.
  eexists. split; [apply conversion_step_2_3_eq; exact Hs|].
  split; [reflexivity|]. split.
  - intros v Hv. rewrite vget_tabulate by exact Hv.
    destruct (Z.eqb_spec (vget 0 A v) 0), (Z.eqb_spec (vget 0 P v) 1),
             (Z.eqb_spec (vget 0 P v) 2); simpl; split; split;
      intros; try tauto; try discriminate; try lia.
  - intros P' A' M0' v HP' HA' E Hv EP EA.
    rewrite conversion_step_2_3_eq in E by congruence. injection E as <-.
    rewrite HP'. rewrite !vget_tabulate by exact Hv. rewrite EP, EA. reflexivity.
Qed.

(** ** Enclosure filling *)

Lemma boundary_reachable_background sh bg v :
  boundary_reachable sh bg v -> bg v = true.
Proof. destruct 1 as [x Hx Hi|x Hx Hm _ _|x w Hx Hm _ _]; [discriminate Hi| |]; exact Hm. Qed.

(** With no foreground at all, the outside reaches every voxel. *)
Lemma boundary_reachable_all sh bg :
  (forall w, inb sh w -> bg w = true) ->
  forall v, inb sh v -> boundary_reachable sh bg v.
Proof.
  intros Hbg [[i j] k]. induction i as [|i IH]; intros Hv.
  - apply reach_border; [exact Hv | apply Hbg; exact Hv | reflexivity|].
    destruct sh as [[X Y] Z']. simpl. left. reflexivity.
  - assert (Hw : inb sh (i, j, k)).
    { destruct sh as [[X Y] Z']. simpl in *. lia. }
    apply reach_step with (i, j, k);
      [exact Hv | apply Hbg; exact Hv | | apply IH; exact Hw].
    simpl. left. repeat split. left. reflexivity.
Qed.

Lemma filled_AT_spec P v :
  inb (shape P) v ->
  (vget false (binary_fill_holes (AT_of P)) v = true <-> Filled P v).
Proof.
  intros Hv. unfold Filled.
  assert (Hr : vget false (binary_fill_holes (AT_of P)) v = false <->
               boundary_reachable (shape P) (fun w => negb (vget 0 P w =? 4)) v).
  { rewrite binary_fill_holes_spec by exact Hv.
    change (shape (AT_of P)) with (shape P). unfold boundary_reachable.
    split; apply reach_ext; auto; intros w Hw; unfold AT_of; read_voxel;
      destruct (vget 0 P w =? 4); reflexivity. }
  destruct (vget false (binary_fill_holes (AT_of P)) v).
  - split; [intros _|reflexivity]. right. intros H. apply Hr in H. discriminate H.
  - split; [discriminate|]. intros [H4|Hn].
    + assert (Hb : boundary_reachable (shape P) (fun w => negb (vget 0 P w =? 4)) v)
        by (apply Hr; reflexivity).
      apply boundary_reachable_background in Hb.
      apply negb_true_iff, Z.eqb_neq in Hb. contradiction.
    + exfalso. apply Hn, Hr. reflexivity.
Qed.

(** C4. With enclosure filling enabled, on a primary volume and a candidate
    mask of one shape: the filled enhancing-tissue mask that the code
    computes is [Filled], the enhancing tissue together with exactly the
    background voxels not joined to the outer boundary by a face-connected
    background walk; the output is 0 at the enclosed voxels and the candidate
    mask elsewhere; and when no voxel is enhancing tissue, no voxel is
    enclosed and the output is the candidate mask itself. *)
Theorem enclosure_filler_spec (P M0 : ndarray Z) (Hs : shape M0 = shape P) :
  exists M1,
    conversion_step_4 true P M0 = Ok M1 /\ shape M1 = shape P /\
    (forall v, inb (shape P) v ->
       (vget false (binary_fill_holes (AT_of P)) v = true <-> Filled P v) /\
       (Enclosed P v -> vget 0 M1 v = 0) /\
       (~ Enclosed P v -> vget 0 M1 v = vget 0 M0 v)) /\
    ((forall v, inb (shape P) v -> vget 0 P v <> 4) ->
     (forall v, inb (shape P) v -> ~ Enclosed P v) /\ (wf M0 -> M1 = M0)).
Proof.
  eexists. split; [apply conversion_step_4_eq; exact Hs|].
  split; [reflexivity|].
  assert (Hpt : forall v, inb (shape P) v ->
            (Enclosed P v ->
             (if vget false (binary_fill_holes (AT_of P)) v
                 && negb (vget 0 P v =? 4) then 0 else vget 0 M0 v) = 0) /\
            (~ Enclosed P v ->
             (if vget false (binary_fill_holes (AT_of P)) v
                 && negb (vget 0 P v =? 4) then 0 else vget 0 M0 v)
             = vget 0 M0 v)).
  { intros v Hv. pose proof (filled_AT_spec P v Hv) as Hf.
    unfold Enclosed. split.
    - intros [HF Hn4]. apply Hf in HF. rewrite HF.
      rewrite (proj2 (Z.eqb_neq _ _) Hn4). reflexivity.
    - intros Hne.
      destruct (vget false (binary_fill_holes (AT_of P)) v) eqn:Ef; [|reflexivity].
      destruct (Z.eqb_spec (vget 0 P v) 4) as [E4|E4]; [reflexivity|].
      exfalso. apply Hne. split; [apply Hf; reflexivity | exact E4]. }
  split.
  - intros v Hv. split; [apply filled_AT_spec; exact Hv|].
    rewrite vget_tabulate by exact Hv. apply Hpt; exact Hv.
  - intros Hempty.
    assert (Hno : forall v, inb (shape P) v -> ~ Enclosed P v).
    { intros v Hv [[H4|Hn] _]; [exact (Hempty v Hv H4)|].
      apply Hn. apply boundary_reachable_all; [|exact Hv].
      intros w Hw. apply negb_true_iff, Z.eqb_neq. apply Hempty; exact Hw. }
    split; [exact Hno|]. intros Hwf. apply (ndarray_ext _ 0).
    + apply wf_tabulate.
    + exact Hwf.
    + simpl. congruence.
    + simpl shape. intros v Hv. rewrite vget_tabulate by exact Hv.
      apply Hpt; [exact Hv | apply Hno; exact Hv].
Qed.

(** ** Component size filtering *)

(** C5. For a mask and a primary volume of one shape and a threshold
    [T >= 0], the filtered mask is 0 or 1 at every voxel, and it is 1 exactly
    when the face-connected component of the voxel in the mask has more than
    [T] voxels or the primary volume is 2 there.  A background voxel has the
    empty component and is kept only as edema; an edema voxel is kept
    whatever the size of its component. *)
Theorem component_size_filter_spec (M1 P : ndarray Z) (T : Z) (v : voxel)
    (Hs : shape M1 = shape P) (HT : 0 <= T) (Hv : inb (shape P) v) :
  exists M2,
    conversion_step_5_6 T P M1 = Ok M2 /\ shape M2 = shape P /\
    (vget 0 M2 v = 0 \/ vget 0 M2 v = 1) /\
    (exists n, component_count (shape P) (nonzero M1) v n /\
               (vget 0 M2 v = 1 <-> T < Z.of_nat n \/ vget 0 P v = 2)) /\
    (nonzero M1 v = false -> (vget 0 M2 v = 1 <-> vget 0 P v = 2)) /\
    (vget 0 P v = 2 -> vget 0 M2 v = 1).
Proof.
  destruct (conversion_step_5_6_shapes T P M1 (shape P) Hs
              (broadcast_shapes_same (shape P))) as (M2 & E & HM2).
  exists M2. split; [exact E|]. split; [exact HM2|].
  pose proof (vget_step_5_6 T P M1 M2 v Hs E Hv) as Hget.
  assert (Hv' : inb (shape M1) v) by (rewrite Hs; exact Hv).
  pose proof (retained_iff T M1 v Hv') as Hret. cbv zeta in Hret.
  rewrite Hs in Hret.
  set (kept := np_isin _ _) in Hget, Hret.
  assert (Hone : vget 0 M2 v = 1 <-> kept = true \/ vget 0 P v = 2).
  { rewrite Hget, b2i_one, orb_true_iff, Z.eqb_eq. reflexivity. }
  split; [rewrite Hget; apply b2i_cases|]. split; [|split].
  - destruct (nonzero M1 v) eqn:Enz.
    + assert (Hlab : vget 0%nat (fst (ndi_label M1)) v <> 0%nat).
      { apply (ndi_label_spec M1); assumption. }
      pose proof (label_count_component M1 v Hv' Hlab) as Hn.
      cbv zeta in Hn. rewrite Hs in Hn.
      eexists. split; [exact Hn|]. rewrite Hone. split.
      * intros [Hk|H2]; [left|right; exact H2].
        apply Hret in Hk. destruct Hk as (_ & n' & Hn' & Hlt).
        rewrite (component_count_unique _ _ _ _ _ Hn Hn'). exact Hlt.
      * intros [Hlt|H2]; [left|right; exact H2].
        apply Hret. split; [reflexivity|]. eexists. split; [exact Hn | exact Hlt].
    + exists 0%nat. split; [apply component_count_zero; exact Enz|].
      rewrite Hone. split.
      * intros [Hk|H2]; [|right; exact H2].
        apply Hret in Hk. destruct Hk as [Hk _]. discriminate Hk.
      * intros [Hlt|H2]; [simpl in Hlt; lia | right; exact H2].
  - intros Enz. rewrite Hone. split; [|tauto].
    intros [Hk|H2]; [|exact H2].
    apply Hret in Hk. destruct Hk as [Hk _]. congruence.
  - intros H2. apply Hone. right. exact H2.
Qed.

(** C10. The size filter sets no voxel that was neither in its input mask
    nor edema in the primary volume. *)
Theorem component_size_filter_shrinks (M1 P : ndarray Z) (T : Z) (v : voxel)
    (Hs : shape M1 = shape P) (Hv : inb (shape P) v) :
  exists M2,
    conversion_step_5_6 T P M1 = Ok M2 /\
    (vget 0 M2 v <> 0 -> vget 0 M1 v <> 0 \/ vget 0 P v = 2).
Proof.
  destruct (conversion_step_5_6_shapes T P M1 (shape P) Hs
              (broadcast_shapes_same (shape P))) as (M2 & E & HM2).
  exists M2. split; [exact E|].
  rewrite (vget_step_5_6 T P M1 M2 v Hs E Hv).
  assert (Hv' : inb (shape M1) v) by (rewrite Hs; exact Hv).
  pose proof (retained_iff T M1 v Hv') as Hret. cbv zeta in Hret.
  set (kept := np_isin _ _) in *.
  destruct kept eqn:Ek; simpl.
  - intros _. left. destruct (proj1 Hret eq_refl) as [Hnz _].
    unfold nonzero in Hnz. apply negb_true_iff, Z.eqb_neq in Hnz. exact Hnz.
  - destruct (Z.eqb_spec (vget 0 P v) 2) as [E2|E2]; simpl; [auto|congruence].
Qed.

(** A larger threshold keeps fewer labels. *)
Lemma lbls_above_antitone T1 T2 (a : ndarray nat) x :
  T1 < T2 ->
  In x (lbls_above T2 (fst (np_unique_counts a)) (snd (np_unique_counts a))) ->
  In x (lbls_above T1 (fst (np_unique_counts a)) (snd (np_unique_counts a))).
Proof. rewrite !in_lbls_above. intros Hlt (H1 & H2 & H3). repeat split; auto; lia. Qed.

(** C8. For fixed volumes of one shape and a fixed enclosure setting, the
    mask computed with the larger of two thresholds is contained in the mask
    computed with the smaller one, and the edema voxels are in both. *)
Theorem threshold_monotone (P A : ndarray Z) (fill : bool) (T1 T2 : Z)
    (Hs : shape A = shape P) (Hlt : T1 < T2) :
  exists M2 M2',
    NE_out_of P A T1 fill = Ok M2 /\ NE_out_of P A T2 fill = Ok M2' /\
    forall v, inb (shape P) v ->
      (vget 0 M2' v = 1 -> vget 0 M2 v = 1) /\
      (vget 0 P v = 2 -> vget 0 M2 v = 1 /\ vget 0 M2' v = 1).
Proof.
  destruct (stages_same_shape P A T1 fill Hs)
    as (M0 & M1 & M2 & D & E0 & H0 & E1 & H1 & E2 & H2 & _ & _ & EN & _).
  destruct (stages_same_shape P A T2 fill Hs)
    as (M0' & M1' & M2' & D' & E0' & _ & E1' & _ & E2' & _ & _ & _ & EN' & _).
  assert (M0' = M0) by congruence. subst M0'.
  assert (M1' = M1) by congruence. subst M1'.
  exists M2, M2'. split; [exact EN|]. split; [exact EN'|].
  intros v Hv.
  rewrite (vget_step_5_6 T1 P M1 M2 v H1 E2 Hv).
  rewrite (vget_step_5_6 T2 P M1 M2' v H1 E2' Hv).
  rewrite !b2i_one, !orb_true_iff, !Z.eqb_eq, !np_isin_true. split.
  - intros [Hk|Hp]; [left|right; exact Hp].
    apply lbls_above_antitone with T2; assumption.
  - intros Hp. split; right; exact Hp.
Qed.

(** ** Label merging *)

Lemma Forall_nth_default A (Q : A -> Prop) l n d :
  Forall Q l -> Q d -> Q (nth n l d).
Proof.
  intros Hl Hd. destruct (Nat.lt_ge_cases n (length l)) as [Hlt|Hge].
  - rewrite Forall_forall in Hl. apply Hl, nth_In; exact Hlt.
  - rewrite nth_overflow by exact Hge. exact Hd.
Qed.

Lemma conversion_step_5_6_binary T P NE M2 :
  conversion_step_5_6 T P NE = Ok M2 -> Forall binary_valued (data M2).
Proof.
  unfold conversion_step_5_6.
  destruct (ndi_label NE) as [labelled_NE nlabels].
  destruct (np_unique_counts labelled_NE) as [lbls n].
  destruct (np_map2 _ _ _ _ _) as [c|e]; simpl; [|discriminate].
  intros E. injection E as <-. simpl. apply Forall_forall.
  intros x Hx. apply in_map_iff in Hx. destruct Hx as (v & <- & _).
  apply b2i_cases.
Qed.

Lemma conversion_step_7_range P NE_out D :
  Forall binary_valued (data NE_out) -> conversion_step_7 P NE_out = Ok D ->
  Forall two_label_valued (data D).
Proof.
  intros Hb. unfold conversion_step_7, np_map2.
  destruct (broadcast_shapes _ _) as [u|]; [|discriminate].
  intros E. injection E as <-. simpl. apply Forall_forall.
  intros x Hx. apply in_map_iff in Hx. destruct Hx as (v & <- & _).
  destruct (bget false _ v); [right; right; reflexivity|].
  assert (H : binary_valued (bget 0 NE_out v)).
  { unfold bget, vget. apply Forall_nth_default; [exact Hb | left; reflexivity]. }
  destruct H as [H|H]; rewrite H; [left | right; left]; reflexivity.
Qed.

(** Every voxel of a converted volume is 0, 1 or 2. *)
Lemma convert_data_range P A T fill D :
  convert_data_brats2021_to_twolabel P A T fill = Ok D ->
  Forall two_label_valued (data D).
Proof.
  rewrite convert_data_via_NE_out.
  destruct (NE_out_of P A T fill) as [M2|e] eqn:EN; simpl; [|discriminate].
  apply conversion_step_7_range.
  unfold NE_out_of in EN.
  destruct (conversion_step_2_3 P A) as [M0|e]; simpl in EN; [|discriminate].
  destruct (conversion_step_4 fill P M0) as [M1|e]; simpl in EN; [|discriminate].
  apply conversion_step_5_6_binary in EN. exact EN.
Qed.

(** C6. Step 7 is total on a primary volume and a mask of one shape: where
    the primary volume is 4 the output is 2 whatever the mask holds; where
    the mask is 0 or 1 the output is 2 if the primary volume is 4, else 1 if
    the mask is set, else 0; and every voxel of every volume the conversion
    returns is 0, 1 or 2. *)
Theorem label_merger_spec (P M2 : ndarray Z) :
  (shape M2 = shape P ->
   exists D,
     conversion_step_7 P M2 = Ok D /\ shape D = shape P /\
     forall v, inb (shape P) v ->
       (vget 0 P v = 4 -> vget 0 D v = 2) /\
       (binary_valued (vget 0 M2 v) ->
        vget 0 D v = (if vget 0 P v =? 4 then 2
                      else if vget 0 M2 v =? 1 then 1 else 0) /\
        two_label_valued (vget 0 D v))) /\
  (forall A T fill D',
     convert_data_brats2021_to_twolabel P A T fill = Ok D' ->
     Forall two_label_valued (data D')).
Proof.
  split; [|intros A T fill D'; apply convert_data_range].
  intros Hs. eexists. split; [apply conversion_step_7_eq; exact Hs|].
  split; [reflexivity|]. intros v Hv. rewrite vget_tabulate by exact Hv. split.
  - intros H4. rewrite H4. reflexivity.
  - unfold binary_valued, two_label_valued.
    intros [H|H]; rewrite H; destruct (vget 0 P v =? 4); simpl; auto.
Qed.

(** C7. On volumes of one shape, whatever the threshold and the enclosure
    setting: a voxel that is edema in the primary volume is set in the
    filtered mask, and a voxel set in the filtered mask is 1 in the converted
    volume unless the primary volume is 4 there. *)
Theorem edema_preserved (P A : ndarray Z) (T : Z) (fill : bool) (v : voxel)
    (Hs : shape A = shape P) (Hv : inb (shape P) v) :
  exists M2 D,
    NE_out_of P A T fill = Ok M2 /\
    convert_data_brats2021_to_twolabel P A T fill = Ok D /\
    (vget 0 P v = 2 -> vget 0 M2 v = 1) /\
    (vget 0 M2 v = 1 -> vget 0 D v = 1 \/ vget 0 P v = 4).
Proof.
  destruct (stages_same_shape P A T fill Hs)
    as (M0 & M1 & M2 & D & E0 & H0 & E1 & H1 & E2 & H2 & E3 & H3 & EN & ED).
  exists M2, D. split; [exact EN|]. split; [exact ED|]. split.
  - intros Hp. rewrite (vget_step_5_6 T P M1 M2 v H1 E2 Hv).
    rewrite (proj2 (Z.eqb_eq _ _) Hp), orb_true_r. reflexivity.
  - intros Hm. rewrite (vget_step_7 P M2 D v H2 E3 Hv).
    destruct (Z.eqb_spec (vget 0 P v) 4) as [E4|E4]; [right; exact E4 | left; exact Hm].
Qed.

(** ** Shape mismatch *)

Lemma shape_astype dt a : shape (astype dt a) = shape a.
Proof. destruct dt; reflexivity. Qed.

(** C2, counterexample. The primary volume of shape (2,1,1) and the auxiliary
    volume of shape (1,1,1) differ in shape, and the conversion returns a
    volume instead of raising. *)
Lemma shape_mismatch_broadcast_accepted :
  shape primary_2x1x1 <> shape auxiliary_1x1x1 /\
  convert_data_brats2021_to_twolabel primary_2x1x1 auxiliary_1x1x1 50 true
  = Ok (mk_ndarray (2, 1, 1)%nat [0; 1]).
Proof. split; [discriminate | reflexivity]. Qed.

(** C2, amended. The conversion raises [ValueError] exactly when the shapes
    of the two volumes do not broadcast (on some axis the lengths differ and
    neither is 1); then the file conversion raises it after reading both
    files and leaves the files as they were, so no output is written.
    Shapes (10,10,10) and (8,10,10) are such a pair. *)
Theorem non_broadcastable_shapes_rejected (P A : ndarray Z) (T : Z) (fill : bool) :
  (convert_data_brats2021_to_twolabel P A T fill = Raise ValueError
   <-> broadcast_shapes (shape A) (shape P) = None) /\
  (broadcast_shapes (shape A) (shape P) = None ->
   forall (fs : filesystem) bf hf out bi hi,
     fs bf = Some bi -> fs hf = Some hi -> dataobj bi = P -> dataobj hi = A ->
     convert_file_brats2021_to_twolabel bf hf out T fill fs
     = (Raise ValueError, fs)) /\
  broadcast_shapes (8, 10, 10)%nat (10, 10, 10)%nat = None.
Proof.
  assert (Hiff : forall P' A' T' fill',
            broadcast_shapes (shape A') (shape P') = None ->
            convert_data_brats2021_to_twolabel P' A' T' fill' = Raise ValueError).
  { intros P' A' T' fill' Hb.
    pose proof (convert_data_shapes P' A' T' fill') as H. rewrite Hb in H. exact H. }
  split; [split|split; [|reflexivity]].
  - intros E. pose proof (convert_data_shapes P A T fill) as H.
    destruct (broadcast_shapes (shape A) (shape P)); [|reflexivity].
    destruct H as (D & ED & _). congruence.
  - apply Hiff.
  - intros Hb fs bf hf out bi hi Ebf Ehf EP EA.
    unfold convert_file_brats2021_to_twolabel, io_bind, read_nifti, io_lift.
    rewrite Ebf, Ehf. rewrite Hiff; [reflexivity|].
    rewrite !shape_astype, EP, EA. exact Hb.
Qed.

(** ** Command line *)


Lemma positional_inv s :
  positional s = true ->
  String.eqb s "--cluster_size_threshold" = false /\
  String.eqb s "--at_fill" = false /\ option_like s = false.
Proof.
  unfold positional. rewrite !andb_true_iff, !negb_true_iff. tauto.
Qed.

(** The values that argparse does not take for an option string: those that
    do not begin with a dash, the dash alone, and the negative numbers. *)
Lemma option_like_false s :
  option_like s = false <->
  match s with
  | EmptyString => True
  | String c r =>
      c <> "-"%char \/ r = ""%string \/ negative_number s = true
  end.
Proof.
  destruct s as [|c r]; [simpl; tauto|].
  unfold option_like.
  destruct (Ascii.eqb_spec c "-") as [->|Hc].
  - destruct r as [|c' r']; [simpl; tauto|].
    destruct (negative_number (String "-" (String c' r'))); simpl; split; auto.
    intros [H|[H|H]]; congruence.
  - simpl. tauto.
Qed.



Example at_fill_false_is_true :
  parse_args ["brats.nii.gz"; "hdglio.nii.gz"; "out.nii.gz";
              "--at_fill"; "false"]%string
  = Ok (mk_namespace "brats.nii.gz" "hdglio.nii.gz" "out.nii.gz" 50 true).
Proof. reflexivity. Qed.

Example at_fill_empty_is_false :
  parse_args ["brats.nii.gz"; "hdglio.nii.gz"; "out.nii.gz";
              "--at_fill"; ""]%string
  = Ok (mk_namespace "brats.nii.gz" "hdglio.nii.gz" "out.nii.gz" 50 false).
Proof. reflexivity. Qed.

Example at_fill_negative_number_is_true :
  parse_args ["brats.nii.gz"; "hdglio.nii.gz"; "out.nii.gz";
              "--at_fill"; "-1.5"]%string
  = Ok (mk_namespace "brats.nii.gz" "hdglio.nii.gz" "out.nii.gz" 50 true).
Proof. reflexivity. Qed.

(** ** The enclosure option through the file conversion *)

Lemma convert_file_ignores_at_fill bf hf out T fill :
  convert_file_brats2021_to_twolabel bf hf out T fill
  = convert_file_brats2021_to_twolabel bf hf out T true.
Proof. reflexivity. Qed.

(** C1. The data transform honours the option: with [at_fill] false the
    enclosed voxel of the shell survives as 1.  The file conversion and the
    command line do not: asked to convert with [at_fill] false (on the
    command line, with an empty value, which parses to false), they write
    the volume in which the enclosed voxel has been removed. *)
Theorem at_fill_disabled_not_honoured_by_file_conversion :
  convert_data_brats2021_to_twolabel shell_3x3x3 tumour_3x3x3 0 false
  = Ok pocket_kept /\
  option_map dataobj
    (snd (convert_file_brats2021_to_twolabel
            "brats.nii.gz" "hdglio.nii.gz" "out.nii.gz" 0 false shell_files)
       "out.nii.gz"%string)
  = Some pocket_removed /\
  option_map at_fill
    (match parse_args ["brats.nii.gz"; "hdglio.nii.gz"; "out.nii.gz";
                       "--cluster_size_threshold"; "0"; "--at_fill"; ""]%string
     with Ok args => Some args | Raise _ => None end)
  = Some false /\
  option_map dataobj
    (snd (main ["brats.nii.gz"; "hdglio.nii.gz"; "out.nii.gz";
                "--cluster_size_threshold"; "0"; "--at_fill"; ""]%string
            shell_files)
       "out.nii.gz"%string)
  = Some pocket_removed.
Proof. repeat split; vm_compute; reflexivity. Qed.

(** * The theorems at concrete volumes *)

(** The mask combination on the shell and its tumour region, at the enclosed
    voxel. *)
Lemma mask_combiner_pointwise_witness :
  shape tumour_3x3x3 = shape shell_3x3x3 /\
  exists M0, conversion_step_2_3 shell_3x3x3 tumour_3x3x3 = Ok M0 /\
             (vget 0 M0 (1, 1, 1)%nat = 1 <->
              (vget 0 tumour_3x3x3 (1, 1, 1)%nat <> 0 /\
               vget 0 shell_3x3x3 (1, 1, 1)%nat = 1) \/
              vget 0 shell_3x3x3 (1, 1, 1)%nat = 2).
Proof.
  split; [reflexivity|].
  destruct (mask_combiner_pointwise shell_3x3x3 tumour_3x3x3 eq_refl)
    as (M0 & E & _ & Hpt & _).
  exists M0. split; [exact E|]. apply Hpt. simpl. lia.
Defined.

(** The centre of the shell is enclosed and is cleared. *)
Lemma enclosure_filler_spec_witness :
  shape tumour_3x3x3 = shape shell_3x3x3 /\
  exists M1, conversion_step_4 true shell_3x3x3 tumour_3x3x3 = Ok M1 /\
             Enclosed shell_3x3x3 (1, 1, 1)%nat /\
             vget 0 M1 (1, 1, 1)%nat = 0.
Proof.
  split; [reflexivity|].
  destruct (enclosure_filler_spec shell_3x3x3 tumour_3x3x3 eq_refl)
    as (M1 & E & _ & Hpt & _).
  assert (Hv : inb (shape shell_3x3x3) (1, 1, 1)%nat) by (simpl; lia).
  destruct (Hpt _ Hv) as (Hf & Hen & _).
  assert (He : Enclosed shell_3x3x3 (1, 1, 1)%nat).
  { split; [apply Hf; vm_compute; reflexivity | vm_compute; discriminate]. }
  exists M1. split; [exact E|]. split; [exact He | exact (Hen He)].
Defined.

(** The size filter on the three clusters under threshold 2, at a voxel of
    the cluster of two. *)
Lemma component_size_filter_spec_witness :
  shape clusters_2x3x4 = shape clusters_2x3x4 /\ 0 <= 2 /\
  inb (shape clusters_2x3x4) (0, 0, 0)%nat /\
  exists M2, conversion_step_5_6 2 clusters_2x3x4 clusters_2x3x4 = Ok M2 /\
             exists n, component_count (shape clusters_2x3x4)
                         (nonzero clusters_2x3x4) (0, 0, 0)%nat n /\
                       (vget 0 M2 (0, 0, 0)%nat = 1 <->
                        2 < Z.of_nat n \/ vget 0 clusters_2x3x4 (0, 0, 0)%nat = 2).
Proof.
  assert (Hv : inb (shape clusters_2x3x4) (0, 0, 0)%nat) by (simpl; lia).
  assert (HT : 0 <= 2) by lia.
  split; [reflexivity|]. split; [exact HT|]. split; [exact Hv|].
  destruct (component_size_filter_spec clusters_2x3x4 clusters_2x3x4 2
              (0, 0, 0)%nat eq_refl HT Hv) as (M2 & E & _ & _ & Hn & _).
  exists M2. split; [exact E | exact Hn].
Defined.

(** The size filter on the three clusters, at a background voxel. *)
Lemma component_size_filter_shrinks_witness :
  shape clusters_2x3x4 = shape clusters_2x3x4 /\
  inb (shape clusters_2x3x4) (0, 0, 2)%nat /\
  exists M2, conversion_step_5_6 2 clusters_2x3x4 clusters_2x3x4 = Ok M2 /\
             (vget 0 M2 (0, 0, 2)%nat <> 0 ->
              vget 0 clusters_2x3x4 (0, 0, 2)%nat <> 0 \/
              vget 0 clusters_2x3x4 (0, 0, 2)%nat = 2).
Proof.
  assert (Hv : inb (shape clusters_2x3x4) (0, 0, 2)%nat) by (simpl; lia).
  split; [reflexivity|]. split; [exact Hv|].
  exact (component_size_filter_shrinks clusters_2x3x4 clusters_2x3x4 2
           (0, 0, 2)%nat eq_refl Hv).
Defined.

(** Thresholds 1 and 2 on the three clusters. *)
Lemma threshold_monotone_witness :
  shape tumour_2x3x4 = shape clusters_2x3x4 /\ 1 < 2 /\
  exists M2 M2',
    NE_out_of clusters_2x3x4 tumour_2x3x4 1 true = Ok M2 /\
    NE_out_of clusters_2x3x4 tumour_2x3x4 2 true = Ok M2' /\
    (vget 0 M2' (0, 0, 0)%nat = 1 -> vget 0 M2 (0, 0, 0)%nat = 1).
Proof.
  assert (Hlt : 1 < 2) by lia.
  split; [reflexivity|]. split; [exact Hlt|].
  destruct (threshold_monotone clusters_2x3x4 tumour_2x3x4 true 1 2 eq_refl Hlt)
    as (M2 & M2' & E & E' & Hpt).
  exists M2, M2'. split; [exact E|]. split; [exact E'|].
  apply Hpt. simpl. lia.
Defined.

(** Step 7 on the shell: a corner of the shell becomes 2. *)
Lemma label_merger_spec_witness :
  shape tumour_3x3x3 = shape shell_3x3x3 /\
  exists D, conversion_step_7 shell_3x3x3 tumour_3x3x3 = Ok D /\
            (vget 0 shell_3x3x3 (0, 0, 0)%nat = 4 -> vget 0 D (0, 0, 0)%nat = 2) /\
            two_label_valued (vget 0 D (1, 1, 1)%nat).
Proof.
  split; [reflexivity|].
  destruct (proj1 (label_merger_spec shell_3x3x3 tumour_3x3x3) eq_refl)
    as (D & E & _ & Hpt).
  exists D. split; [exact E|]. split.
  - apply Hpt. simpl. lia.
  - apply Hpt; [simpl; lia | right; reflexivity].
Defined.

(** The edema voxel of the three clusters survives threshold 50. *)
Lemma edema_preserved_witness :
  shape tumour_2x3x4 = shape clusters_2x3x4 /\
  inb (shape clusters_2x3x4) (0, 2, 0)%nat /\
  exists M2 D,
    NE_out_of clusters_2x3x4 tumour_2x3x4 50 true = Ok M2 /\
    convert_data_brats2021_to_twolabel clusters_2x3x4 tumour_2x3x4 50 true = Ok D /\
    (vget 0 clusters_2x3x4 (0, 2, 0)%nat = 2 -> vget 0 M2 (0, 2, 0)%nat = 1) /\
    (vget 0 M2 (0, 2, 0)%nat = 1 ->
     vget 0 D (0, 2, 0)%nat = 1 \/ vget 0 clusters_2x3x4 (0, 2, 0)%nat = 4).
Proof.
  assert (Hv : inb (shape clusters_2x3x4) (0, 2, 0)%nat) by (simpl; lia).
  split; [reflexivity|]. split; [exact Hv|].
  exact (edema_preserved clusters_2x3x4 tumour_2x3x4 50 true (0, 2, 0)%nat eq_refl Hv).
Defined.

(** Shapes (3,1,1) and (2,1,1) do not broadcast: the conversion raises and
    the file conversion leaves the files as they were. *)
Lemma non_broadcastable_shapes_rejected_witness :
  broadcast_shapes (shape auxiliary_2x1x1) (shape primary_3x1x1) = None /\
  convert_data_brats2021_to_twolabel primary_3x1x1 auxiliary_2x1x1 50 true
  = Raise ValueError /\
  convert_file_brats2021_to_twolabel "brats.nii.gz" "hdglio.nii.gz" "out.nii.gz"
    50 true mismatched_files
  = (Raise ValueError, mismatched_files).
Proof.
  assert (Hb : broadcast_shapes (shape auxiliary_2x1x1) (shape primary_3x1x1) = None)
    by reflexivity.
  destruct (non_broadcastable_shapes_rejected primary_3x1x1 auxiliary_2x1x1 50 true)
    as (Hiff & Hfile & _).
  split; [exact Hb|]. split; [apply Hiff; exact Hb|].
  apply (Hfile Hb mismatched_files "brats.nii.gz"%string "hdglio.nii.gz"%string
           "out.nii.gz"%string
           (mk_image primary_3x1x1 "" (mk_header np_float64 ""))
           (mk_image auxiliary_2x1x1 "" (mk_header np_float64 "")));
    reflexivity.
Defined.


(** * Further properties of the code *)

(** ** Clusters *)

Lemma conn_mono sh fg fg' v u :
  (forall w, inb sh w -> fg w = true -> fg' w = true) ->
  conn sh fg v u -> conn sh fg' v u.
Proof.
  intros Hm. induction 1 as [Hv Hf|x y Hvx IH Hadj Hy Hfy].
  - apply conn_refl; auto.
  - apply conn_step with x; auto.
Qed.

Lemma component_count_mono sh fg fg' v n n' :
  (forall w, inb sh w -> fg w = true -> fg' w = true) ->
  component_count sh fg v n -> component_count sh fg' v n' -> (n <= n')%nat.
Proof.
  intros Hm (l & Hnd & Hl & <-) (l' & Hnd' & Hl' & <-).
  apply NoDup_incl_length; [exact Hnd|].
  intros u Hu. apply Hl'. apply conn_mono with fg; [exact Hm|]. apply Hl; exact Hu.
Qed.

Lemma component_count_bound sh fg v n :
  component_count sh fg v n -> (n <= size sh)%nat.
Proof.
  intros (l & Hnd & Hl & <-). rewrite <- length_all_idx.
  apply NoDup_incl_length; [exact Hnd|].
  intros u Hu. apply in_all_idx. apply Hl in Hu.
  apply conn_end in Hu. tauto.
Qed.

Lemma component_count_pos sh fg v n :
  inb sh v -> fg v = true -> component_count sh fg v n -> (1 <= n)%nat.
Proof.
  intros Hv Hf (l & _ & Hl & <-).
  assert (Hin : In v l) by (apply Hl; apply conn_refl; assumption).
  destruct l; [destruct Hin | simpl; lia].
Qed.

Lemma component_count_conn sh fg v u n :
  conn sh fg v u -> component_count sh fg v n -> component_count sh fg u n.
Proof.
  intros Hvu (l & Hnd & Hl & Hn). exists l. split; [exact Hnd|]. split; [|exact Hn].
  intros w. rewrite Hl. split; intros H.
  - apply conn_trans with v; [apply conn_sym; exact Hvu | exact H].
  - apply conn_trans with u; assumption.
Qed.

(** Every voxel of a mask has a cluster size. *)
Lemma component_count_total (M : ndarray Z) v :
  inb (shape M) v -> exists n, component_count (shape M) (nonzero M) v n.
Proof.
  intros Hv. destruct (nonzero M v) eqn:Enz.
  - eexists. apply label_count_component; [exact Hv|].
    apply (ndi_label_spec M); assumption.
  - exists 0%nat. apply component_count_zero; exact Enz.
Qed.

(** The mask after step 5 and 6 is set at the kept voxels and at the edema
    voxels, whatever the threshold. *)
Lemma conversion_step_5_6_kept T P M M2 v :
  shape M = shape P -> conversion_step_5_6 T P M = Ok M2 -> inb (shape P) v ->
  (vget 0 M2 v = 1 <-> kept T M v \/ vget 0 P v = 2) /\
  (vget 0 M2 v = 0 \/ vget 0 M2 v = 1).
Proof.
  intros Hs E Hv. rewrite (vget_step_5_6 T P M M2 v Hs E Hv).
  split; [|apply b2i_cases].
  assert (Hv' : inb (shape M) v) by (rewrite Hs; exact Hv).
  pose proof (retained_iff T M v Hv') as Hret. cbv zeta in Hret.
  rewrite b2i_one, orb_true_iff, Z.eqb_eq, Hret. reflexivity.
Qed.

Lemma conversion_step_5_6_ok T P M :
  shape M = shape P ->
  exists M2, conversion_step_5_6 T P M = Ok M2 /\ shape M2 = shape P /\ wf M2.
Proof.
  intros Hs. eexists. split; [apply conversion_step_5_6_eq; exact Hs|].
  split; [reflexivity | apply wf_tabulate].
Qed.


Lemma nonzero_true (M : ndarray Z) v : nonzero M v = true <-> vget 0 M v <> 0.
Proof. unfold nonzero. rewrite negb_true_iff, Z.eqb_neq. reflexivity. Qed.

(** ** The size filter at its extremes *)

(** X1. A threshold of 0 or less removes nothing: the filtered mask is set
    exactly where the input mask is nonzero or the primary volume is edema.
    The background is not retained even under a negative threshold. *)
Theorem nonpositive_threshold_keeps_mask (M P : ndarray Z) (T : Z) (v : voxel)
    (Hs : shape M = shape P) (HT : T <= 0) (Hv : inb (shape P) v) :
  exists M2,
    conversion_step_5_6 T P M = Ok M2 /\
    (vget 0 M2 v = 1 <-> vget 0 M v <> 0 \/ vget 0 P v = 2).
Proof.
  destruct (conversion_step_5_6_ok T P M Hs) as (M2 & E & _ & _).
  exists M2. split; [exact E|].
  rewrite (proj1 (conversion_step_5_6_kept T P M M2 v Hs E Hv)).
  rewrite <- nonzero_true. unfold kept.
  assert (Hv' : inb (shape M) v) by (rewrite Hs; exact Hv).
  split; intros [H|H]; auto; left; [tauto|].
  split; [exact H|].
  destruct (component_count_total M v Hv') as (n & Hn).
  exists n. split; [exact Hn|].
  pose proof (component_count_pos _ _ _ _ Hv' H Hn). lia.
Qed.

(** The filter on the three clusters under threshold -1. *)
Lemma nonpositive_threshold_keeps_mask_witness :
  shape clusters_2x3x4 = shape clusters_2x3x4 /\ -1 <= 0 /\
  inb (shape clusters_2x3x4) (0, 0, 2)%nat /\
  exists M2,
    conversion_step_5_6 (-1) clusters_2x3x4 clusters_2x3x4 = Ok M2 /\
    (vget 0 M2 (0, 0, 2)%nat = 1 <->
     vget 0 clusters_2x3x4 (0, 0, 2)%nat <> 0 \/
     vget 0 clusters_2x3x4 (0, 0, 2)%nat = 2).
Proof.
  assert (HT : -1 <= 0) by lia.
  assert (Hv : inb (shape clusters_2x3x4) (0, 0, 2)%nat) by (simpl; lia).
  split; [reflexivity|]. split; [exact HT|]. split; [exact Hv|].
  exact (nonpositive_threshold_keeps_mask clusters_2x3x4 clusters_2x3x4 (-1)
           (0, 0, 2)%nat eq_refl HT Hv).
Defined.

(** X2. A threshold of at least the number of voxels removes every cluster:
    on volumes of one shape the conversion is then the relabelling of the
    primary volume voxel by voxel (4 to 2, 2 to 1, anything else to 0),
    whatever the auxiliary volume and the enclosure setting. *)
Theorem large_threshold_relabels (P A : ndarray Z) (T : Z) (fill : bool)
    (Hs : shape A = shape P) (HT : Z.of_nat (size (shape P)) <= T) :
  convert_data_brats2021_to_twolabel P A T fill
  = Ok (tabulate (shape P) (fun v => relabel (vget 0 P v))).
Proof.
  destruct (stages_same_shape P A T fill Hs)
    as (M0 & M1 & M2 & D & E0 & H0 & E1 & H1 & E2 & H2 & E3 & H3 & EN & ED).
  rewrite ED. rewrite conversion_step_7_eq in E3 by exact H2.
  injection E3 as <-. f_equal. apply tabulate_ext. intros v Hv.
  unfold relabel. destruct (vget 0 P v =? 4); [reflexivity|].
  destruct (conversion_step_5_6_kept T P M1 M2 v H1 E2 Hv) as [Hone Hbin].
  destruct (Z.eqb_spec (vget 0 P v) 2) as [E|E].
  - apply Hone. right. exact E.
  - destruct Hbin as [Hz|Ho]; [exact Hz|]. exfalso.
    apply Hone in Ho. destruct Ho as [(_ & n & Hn & Hlt)|Ho]; [|contradiction].
    apply component_count_bound in Hn. rewrite H1 in Hn. lia.
Qed.

(** Threshold 24 on the three clusters in their 24 voxels. *)
Lemma large_threshold_relabels_witness :
  shape tumour_2x3x4 = shape clusters_2x3x4 /\
  Z.of_nat (size (shape clusters_2x3x4)) <= 24 /\
  convert_data_brats2021_to_twolabel clusters_2x3x4 tumour_2x3x4 24 true
  = Ok (tabulate (shape clusters_2x3x4)
          (fun v => relabel (vget 0 clusters_2x3x4 v))).
Proof.
  assert (HT : Z.of_nat (size (shape clusters_2x3x4)) <= 24) by (simpl; lia).
  split; [reflexivity|]. split; [exact HT|].
  exact (large_threshold_relabels clusters_2x3x4 tumour_2x3x4 24 true eq_refl HT).
Defined.

(** ** The size filter and the mask *)

Lemma kept_mono T (M M' : ndarray Z) v :
  shape M = shape M' ->
  (forall w, inb (shape M') w -> vget 0 M w <> 0 -> vget 0 M' w <> 0) ->
  inb (shape M') v -> kept T M v -> kept T M' v.
Proof.
  intros Hs Hsub Hv (Hnz & n & Hn & Hlt).
  assert (Hm : forall w, inb (shape M') w ->
                         nonzero M w = true -> nonzero M' w = true).
  { intros w Hw. rewrite !nonzero_true. apply Hsub; exact Hw. }
  split; [apply Hm; assumption|].
  destruct (component_count_total M' v Hv) as (n' & Hn').
  exists n'. split; [exact Hn'|]. rewrite Hs in Hn.
  pose proof (component_count_mono _ _ _ _ _ _ Hm Hn Hn'). lia.
Qed.

(** X3. The size filter is monotone in its mask: on a larger mask every
    cluster is at least as large, so a voxel that the filter keeps on a mask
    it also keeps on every mask that contains it. *)
Theorem size_filter_monotone_in_mask (M M' P : ndarray Z) (T : Z)
    (Hs : shape M = shape P) (Hs' : shape M' = shape P)
    (Hsub : forall v, inb (shape P) v -> vget 0 M v <> 0 -> vget 0 M' v <> 0) :
  exists M2 M2',
    conversion_step_5_6 T P M = Ok M2 /\ conversion_step_5_6 T P M' = Ok M2' /\
    forall v, inb (shape P) v -> vget 0 M2 v = 1 -> vget 0 M2' v = 1.
Proof.
  destruct (conversion_step_5_6_ok T P M Hs) as (M2 & E & _ & _).
  destruct (conversion_step_5_6_ok T P M' Hs') as (M2' & E' & _ & _).
  exists M2, M2'. split; [exact E|]. split; [exact E'|].
  intros v Hv H1.
  apply (conversion_step_5_6_kept T P M M2 v Hs E Hv) in H1.
  apply (conversion_step_5_6_kept T P M' M2' v Hs' E' Hv).
  destruct H1 as [Hk|H2]; [left|right; exact H2].
  apply kept_mono with M; [congruence | | rewrite Hs'; exact Hv | exact Hk].
  rewrite Hs'. exact Hsub.
Qed.

(** Containment of one mask in another, checked voxel by voxel. *)
Lemma contained_by_check (M M' : ndarray Z) sh :
  forallb (fun v => (vget 0 M v =? 0) || negb (vget 0 M' v =? 0)) (all_idx sh)
  = true ->
  forall v, inb sh v -> vget 0 M v <> 0 -> vget 0 M' v <> 0.
Proof.
  intros Hall v Hv Hnz. rewrite forallb_forall in Hall.
  specialize (Hall v (proj2 (in_all_idx sh v) Hv)).
  apply orb_true_iff in Hall. destruct Hall as [H|H].
  - apply Z.eqb_eq in H. contradiction.
  - apply negb_true_iff, Z.eqb_neq in H. exact H.
Qed.

(** The three clusters with and without the voxel (0,1,3), under threshold
    3: the cluster of four is kept, and what is left of it in the smaller
    mask is not. *)
Lemma size_filter_monotone_in_mask_witness :
  (forall v, inb (shape clusters_2x3x4) v ->
     vget 0 clusters_less_one v <> 0 -> vget 0 clusters_2x3x4 v <> 0) /\
  exists M2 M2',
    conversion_step_5_6 3 clusters_2x3x4 clusters_less_one = Ok M2 /\
    conversion_step_5_6 3 clusters_2x3x4 clusters_2x3x4 = Ok M2' /\
    (forall v, inb (shape clusters_2x3x4) v ->
               vget 0 M2 v = 1 -> vget 0 M2' v = 1) /\
    vget 0 M2 (0, 2, 3)%nat = 0 /\ vget 0 M2' (0, 2, 3)%nat = 1.
Proof.
  assert (Hsub : forall v, inb (shape clusters_2x3x4) v ->
            vget 0 clusters_less_one v <> 0 -> vget 0 clusters_2x3x4 v <> 0).
  { apply contained_by_check. vm_compute. reflexivity. }
  split; [exact Hsub|].
  destruct (size_filter_monotone_in_mask clusters_less_one clusters_2x3x4
              clusters_2x3x4 3 eq_refl eq_refl Hsub) as (M2 & M2' & E & E' & Hm).
  exists M2, M2'. split; [exact E|]. split; [exact E'|]. split; [exact Hm|].
  assert (E0 : conversion_step_5_6 3 clusters_2x3x4 clusters_less_one
               = Ok (mk_ndarray (2, 3, 4)%nat
                       [0; 0; 0; 0;   0; 0; 0; 0;   1; 0; 0; 0;
                        0; 0; 0; 0;   1; 0; 0; 0;   1; 1; 0; 0]))
    by (vm_compute; reflexivity).
  assert (E0' : conversion_step_5_6 3 clusters_2x3x4 clusters_2x3x4
                = Ok (mk_ndarray (2, 3, 4)%nat
                        [0; 0; 0; 0;   0; 0; 0; 1;   1; 0; 1; 1;
                         0; 0; 0; 0;   1; 0; 0; 0;   1; 1; 0; 1]))
    by (vm_compute; reflexivity).
  rewrite E0 in E. injection E as <-. rewrite E0' in E'. injection E' as <-.
  split; reflexivity.
Defined.

(** X4. The size filter is idempotent: filtering the filtered mask again,
    with the same primary volume and threshold, gives it back. *)
Theorem size_filter_idempotent (M P : ndarray Z) (T : Z)
    (Hs : shape M = shape P) :
  exists M2,
    conversion_step_5_6 T P M = Ok M2 /\ conversion_step_5_6 T P M2 = Ok M2.
Proof.
  destruct (conversion_step_5_6_ok T P M Hs) as (M2 & E & Hs2 & Hwf2).
  destruct (conversion_step_5_6_ok T P M2 Hs2) as (M3 & E' & Hs3 & Hwf3).
  exists M2. split; [exact E|]. rewrite E'. f_equal.
  apply (ndarray_ext _ 0); [exact Hwf3 | exact Hwf2 | congruence |].
  rewrite Hs3. intros v Hv.
  destruct (conversion_step_5_6_kept T P M M2 v Hs E Hv) as [Hone Hbin].
  destruct (conversion_step_5_6_kept T P M2 M3 v Hs2 E' Hv) as [Hone' Hbin'].
  assert (Hiff : vget 0 M3 v = 1 <-> vget 0 M2 v = 1).
  { rewrite Hone'. split.
    - intros [(Hnz & _)|H2]; [|apply Hone; right; exact H2].
      apply nonzero_true in Hnz. destruct Hbin as [Hz|Ho]; [contradiction | exact Ho].
    - intros H1. apply Hone in H1.
      destruct H1 as [(Hnz & n & Hn & Hlt)|H2]; [left|right; exact H2].
      rewrite Hs in Hn.
      assert (Hin : forall u, conn (shape P) (nonzero M) v u ->
                              nonzero M2 u = true).
      { intros u Hvu. pose proof (conn_end _ _ _ _ Hvu) as [Hu Hfu].
        apply nonzero_true.
        assert (H1 : vget 0 M2 u = 1).
        { apply (conversion_step_5_6_kept T P M M2 u Hs E Hu). left.
          split; [exact Hfu|]. exists n. split; [|exact Hlt].
          rewrite Hs. apply component_count_conn with v; assumption. }
        rewrite H1. discriminate. }
      assert (Hconn : forall u, conn (shape P) (nonzero M) v u ->
                                conn (shape P) (nonzero M2) v u).
      { intros u Hvu. induction Hvu as [Hv0 Hf0|x y Hvx IH Hadj Hy Hfy].
        - apply conn_refl; [exact Hv0|]. apply Hin. apply conn_refl; assumption.
        - apply conn_step with x; [exact IH | exact Hadj | exact Hy|].
          apply Hin. apply conn_step with x; assumption. }
      split; [apply Hin; apply conn_refl; [exact Hv | exact Hnz]|].
      assert (Hv2 : inb (shape M2) v) by (rewrite Hs2; exact Hv).
      destruct (component_count_total M2 v Hv2) as (n2 & Hn2).
      exists n2. split; [exact Hn2|]. rewrite Hs2 in Hn2.
      destruct Hn as (l & Hnd & Hl & <-). destruct Hn2 as (l2 & Hnd2 & Hl2 & <-).
      assert (Hle : (length l <= length l2)%nat).
      { apply NoDup_incl_length; [exact Hnd|].
        intros u Hu. apply Hl2, Hconn, Hl. exact Hu. }
      lia. }
  destruct Hbin as [Hz|Ho], Hbin' as [Hz'|Ho']; try congruence.
  - apply Hiff in Ho'. congruence.
  - apply Hiff in Ho. congruence.
Qed.

(** Filtering the three clusters twice under threshold 2. *)
Lemma size_filter_idempotent_witness :
  shape clusters_2x3x4 = shape clusters_2x3x4 /\
  exists M2,
    conversion_step_5_6 2 clusters_2x3x4 clusters_2x3x4 = Ok M2 /\
    conversion_step_5_6 2 clusters_2x3x4 M2 = Ok M2.
Proof.
  split; [reflexivity|].
  exact (size_filter_idempotent clusters_2x3x4 clusters_2x3x4 2 eq_refl).
Defined.

(** ** The enclosure stage *)

Lemma border_not_enclosed P v :
  inb (shape P) v -> on_border (shape P) v -> ~ Enclosed P v.
Proof.
  intros Hv Hb [[H4|Hn] Hn4]; [contradiction|].
  apply Hn. apply reach_border; [exact Hv | | reflexivity | exact Hb].
  apply negb_true_iff, Z.eqb_neq. exact Hn4.
Qed.

Lemma vget_step_4 P M0 M1 v :
  shape M0 = shape P -> conversion_step_4 true P M0 = Ok M1 -> inb (shape P) v ->
  (Enclosed P v -> vget 0 M1 v = 0) /\
  (~ Enclosed P v -> vget 0 M1 v = vget 0 M0 v).
Proof.
  intros Hs E Hv. rewrite conversion_step_4_eq in E by exact Hs.
  injection E as <-. rewrite vget_tabulate by exact Hv.
  pose proof (filled_AT_spec P v Hv) as Hf. unfold Enclosed. split.
  - intros [HF Hn4]. apply Hf in HF. rewrite HF.
    rewrite (proj2 (Z.eqb_neq _ _) Hn4). reflexivity.
  - intros Hne.
    destruct (vget false (binary_fill_holes (AT_of P)) v) eqn:Ef; [|reflexivity].
    destruct (Z.eqb_spec (vget 0 P v) 4) as [E4|E4]; [reflexivity|].
    exfalso. apply Hne. split; [apply Hf; reflexivity | exact E4].
Qed.

(** X5. Step 4 only clears voxels, never one of the outer faces of the
    volume, and clearing twice is clearing once: where its output is nonzero
    it is the candidate mask; on the six outer faces the output is the
    candidate mask; and applied to its own output it returns it. *)
Theorem enclosure_stage_clears_interior_only (P M0 : ndarray Z)
    (Hs : shape M0 = shape P) :
  exists M1,
    conversion_step_4 true P M0 = Ok M1 /\
    (forall v, inb (shape P) v ->
       (vget 0 M1 v <> 0 -> vget 0 M1 v = vget 0 M0 v) /\
       (on_border (shape P) v -> vget 0 M1 v = vget 0 M0 v)) /\
    conversion_step_4 true P M1 = Ok M1.
Proof.
  destruct (conversion_step_4_shapes true P M0 (shape P) Hs
              (broadcast_shapes_same (shape P))) as (M1 & E & Hs1).
  exists M1. split; [exact E|]. split.
  - intros v Hv. destruct (vget_step_4 P M0 M1 v Hs E Hv) as [Hen Hne]. split.
    + intros Hnz. apply Hne. intros He. apply Hnz, Hen, He.
    + intros Hb. apply Hne. apply border_not_enclosed; assumption.
  - rewrite conversion_step_4_eq by exact Hs1. f_equal.
    rewrite conversion_step_4_eq in E by exact Hs. injection E as <-.
    apply tabulate_ext. intros v Hv. rewrite vget_tabulate by exact Hv.
    destruct (vget false (binary_fill_holes (AT_of P)) v && negb (vget 0 P v =? 4));
      reflexivity.
Qed.

(** Step 4 on the shell: a corner keeps its value. *)
Lemma enclosure_stage_clears_interior_only_witness :
  shape tumour_3x3x3 = shape shell_3x3x3 /\
  exists M1,
    conversion_step_4 true shell_3x3x3 tumour_3x3x3 = Ok M1 /\
    vget 0 M1 (0, 0, 0)%nat = vget 0 tumour_3x3x3 (0, 0, 0)%nat /\
    conversion_step_4 true shell_3x3x3 M1 = Ok M1.
Proof.
  split; [reflexivity|].
  destruct (enclosure_stage_clears_interior_only shell_3x3x3 tumour_3x3x3 eq_refl)
    as (M1 & E & Hpt & Hid).
  exists M1. split; [exact E|]. split; [|exact Hid].
  apply Hpt; simpl; lia.
Defined.

(** X6. Enabling the enclosure filling never adds to the output: on volumes
    of one shape, the volume converted with filling agrees with the volume
    converted without it wherever it is not 0. *)
Theorem at_fill_only_removes (P A : ndarray Z) (T : Z)
    (Hs : shape A = shape P) :
  exists D_fill D_plain,
    convert_data_brats2021_to_twolabel P A T true = Ok D_fill /\
    convert_data_brats2021_to_twolabel P A T false = Ok D_plain /\
    forall v, inb (shape P) v ->
      vget 0 D_fill v <> 0 -> vget 0 D_fill v = vget 0 D_plain v.
Proof.
  destruct (stages_same_shape P A T true Hs)
    as (M0 & M1 & M2 & D & E0 & H0 & E1 & H1 & E2 & H2 & E3 & H3 & _ & ED).
  destruct (stages_same_shape P A T false Hs)
    as (M0' & M1' & M2' & D' & E0' & _ & E1' & H1' & E2' & H2' & E3' & _ & _ & ED').
  assert (M0' = M0) by congruence. subst M0'.
  assert (M1' = M0) by (rewrite conversion_step_4_disabled in E1'; congruence).
  subst M1'.
  exists D, D'. split; [exact ED|]. split; [exact ED'|].
  intros v Hv.
  rewrite (vget_step_7 P M2 D v H2 E3 Hv), (vget_step_7 P M2' D' v H2' E3' Hv).
  destruct (vget 0 P v =? 4); [reflexivity|]. intros Hnz.
  destruct (conversion_step_5_6_kept T P M1 M2 v H1 E2 Hv) as [_ Hbin].
  destruct Hbin as [Hz|Ho]; [contradiction|]. rewrite Ho. symmetry.
  apply (conversion_step_5_6_kept T P M0 M2' v H0 E2' Hv).
  apply (conversion_step_5_6_kept T P M1 M2 v H1 E2 Hv) in Ho.
  destruct Ho as [Hk|Hp]; [left|right; exact Hp].
  apply kept_mono with M1; [congruence | | rewrite H0; exact Hv | exact Hk].
  rewrite H0. intros w Hw Hnzw.
  destruct (vget_step_4 P M0 M1 w H0 E1 Hw) as [Hen Hne].
  rewrite <- Hne; [exact Hnzw|]. intros He. apply Hnzw, Hen, He.
Qed.

(** The shell converted with and without filling. *)
Lemma at_fill_only_removes_witness :
  shape tumour_3x3x3 = shape shell_3x3x3 /\
  exists D_fill D_plain,
    convert_data_brats2021_to_twolabel shell_3x3x3 tumour_3x3x3 0 true = Ok D_fill /\
    convert_data_brats2021_to_twolabel shell_3x3x3 tumour_3x3x3 0 false = Ok D_plain /\
    (vget 0 D_fill (0, 0, 0)%nat <> 0 ->
     vget 0 D_fill (0, 0, 0)%nat = vget 0 D_plain (0, 0, 0)%nat).
Proof.
  split; [reflexivity|].
  destruct (at_fill_only_removes shell_3x3x3 tumour_3x3x3 0 eq_refl)
    as (Df & Dp & Ef & Ep & Hpt).
  exists Df, Dp. split; [exact Ef|]. split; [exact Ep|].
  apply Hpt. simpl. lia.
Defined.

(** ** What the output depends on *)

Lemma vget_step_2_3 P A M0 v :
  shape A = shape P -> conversion_step_2_3 P A = Ok M0 -> inb (shape P) v ->
  vget 0 M0 v
  = b2i (negb (vget 0 A v =? 0) && (vget 0 P v =? 1) || (vget 0 P v =? 2)).
Proof.
  intros Hs E Hv. rewrite conversion_step_2_3_eq in E by exact Hs.
  injection E as <-. apply vget_tabulate; exact Hv.
Qed.

(** Either setting of step 4 only clears voxels. *)
Lemma conversion_step_4_shrinks fill P M0 M1 v :
  shape M0 = shape P -> conversion_step_4 fill P M0 = Ok M1 -> inb (shape P) v ->
  vget 0 M1 v <> 0 -> vget 0 M0 v <> 0.
Proof.
  intros Hs E Hv Hnz. destruct fill.
  - destruct (vget_step_4 P M0 M1 v Hs E Hv) as [Hen Hne].
    rewrite <- Hne; [exact Hnz|]. intros He. apply Hnz, Hen, He.
  - rewrite conversion_step_4_disabled in E. injection E as <-. exact Hnz.
Qed.

(** X7. On volumes of one shape the output at a voxel is 2 exactly where the
    primary volume is 4, and is 1 only where the primary volume is edema, or
    necrosis inside the auxiliary tumour region.  At a voxel that is not
    necrosis, or lies outside the tumour region, the output is the
    relabelling of the primary label alone: it depends neither on the other
    voxels, nor on the threshold, nor on the enclosure setting. *)
Theorem output_determined_off_necrosis (P A : ndarray Z) (T : Z) (fill : bool)
    (v : voxel) (Hs : shape A = shape P) (Hv : inb (shape P) v) :
  exists D,
    convert_data_brats2021_to_twolabel P A T fill = Ok D /\
    (vget 0 D v = 2 <-> vget 0 P v = 4) /\
    (vget 0 D v = 1 ->
     vget 0 P v = 2 \/ (vget 0 P v = 1 /\ vget 0 A v <> 0)) /\
    (vget 0 P v <> 1 \/ vget 0 A v = 0 -> vget 0 D v = relabel (vget 0 P v)).
Proof.
  destruct (stages_same_shape P A T fill Hs)
    as (M0 & M1 & M2 & D & E0 & H0 & E1 & H1 & E2 & H2 & E3 & H3 & _ & ED).
  exists D. split; [exact ED|].
  rewrite (vget_step_7 P M2 D v H2 E3 Hv).
  destruct (conversion_step_5_6_kept T P M1 M2 v H1 E2 Hv) as [Hone Hbin].
  assert (Hcand : vget 0 M2 v = 1 ->
                  vget 0 P v = 2 \/ (vget 0 P v = 1 /\ vget 0 A v <> 0)).
  { intros H. apply Hone in H. destruct H as [(Hnz & _)|H2']; [|left; exact H2'].
    apply nonzero_true in Hnz.
    apply (conversion_step_4_shrinks fill P M0 M1 v H0 E1 Hv) in Hnz.
    rewrite (vget_step_2_3 P A M0 v Hs E0 Hv) in Hnz.
    destruct (Z.eqb_spec (vget 0 A v) 0), (Z.eqb_spec (vget 0 P v) 1),
             (Z.eqb_spec (vget 0 P v) 2); simpl in Hnz; auto; contradiction. }
  unfold relabel.
  destruct (Z.eqb_spec (vget 0 P v) 4) as [E4|E4].
  - split; [tauto|]. split; [discriminate|]. reflexivity.
  - split; [|split].
    + split; [|contradiction]. destruct Hbin as [H|H]; rewrite H; discriminate.
    + exact Hcand.
    + intros Hoff. destruct (Z.eqb_spec (vget 0 P v) 2) as [E2'|E2'].
      * apply Hone. right. exact E2'.
      * destruct Hbin as [H|H]; [exact H|]. exfalso.
        destruct (Hcand H) as [Hc|[Hc1 Hc2]]; [contradiction|].
        destruct Hoff; contradiction.
Qed.

(** The edema voxel of the three clusters. *)
Lemma output_determined_off_necrosis_witness :
  shape tumour_2x3x4 = shape clusters_2x3x4 /\
  inb (shape clusters_2x3x4) (0, 2, 0)%nat /\
  exists D,
    convert_data_brats2021_to_twolabel clusters_2x3x4 tumour_2x3x4 50 true = Ok D /\
    vget 0 D (0, 2, 0)%nat = relabel (vget 0 clusters_2x3x4 (0, 2, 0)%nat).
Proof.
  assert (Hv : inb (shape clusters_2x3x4) (0, 2, 0)%nat) by (simpl; lia).
  split; [reflexivity|]. split; [exact Hv|].
  destruct (output_determined_off_necrosis clusters_2x3x4 tumour_2x3x4 50 true
              (0, 2, 0)%nat eq_refl Hv) as (D & E & _ & _ & Hoff).
  exists D. split; [exact E|]. apply Hoff. left. discriminate.
Defined.

Lemma known_label_tests x :
  let y := if (x =? 1) || (x =? 2) || (x =? 4) then x else 0 in
  (y =? 1) = (x =? 1) /\ (y =? 2) = (x =? 2) /\ (y =? 4) = (x =? 4).
Proof.
  cbv zeta.
  destruct (Z.eqb_spec x 1) as [->|H1]; [simpl; auto|].
  destruct (Z.eqb_spec x 2) as [->|H2]; [simpl; auto|].
  destruct (Z.eqb_spec x 4) as [->|H4]; simpl; auto.
Qed.

Lemma vget_known_labels_only P v :
  inb (shape P) v ->
  (vget 0 (known_labels_only P) v =? 1) = (vget 0 P v =? 1) /\
  (vget 0 (known_labels_only P) v =? 2) = (vget 0 P v =? 2) /\
  (vget 0 (known_labels_only P) v =? 4) = (vget 0 P v =? 4).
Proof.
  intros Hv. unfold known_labels_only. rewrite vget_np_map by exact Hv.
  apply known_label_tests.
Qed.

(** X8. Only the tests of the code matter.  On volumes of one shape,
    replacing in the primary volume every value other than 1, 2 and 4 by 0,
    and in the auxiliary volume every nonzero value by 1, leaves the
    converted volume as it is. *)
Theorem conversion_reads_known_labels_only (P A : ndarray Z) (T : Z) (fill : bool)
    (Hs : shape A = shape P) :
  convert_data_brats2021_to_twolabel (known_labels_only P) (tumour_indicator A) T fill
  = convert_data_brats2021_to_twolabel P A T fill.
Proof.
  destruct (stages_same_shape P A T fill Hs)
    as (M0 & M1 & M2 & D & E0 & H0 & E1 & H1 & E2 & H2 & E3 & H3 & _ & ED).
  assert (HP : shape (known_labels_only P) = shape P) by reflexivity.
  assert (HA : shape (tumour_indicator A) = shape (known_labels_only P)) by exact Hs.
  assert (E0' : conversion_step_2_3 (known_labels_only P) (tumour_indicator A) = Ok M0).
  { rewrite <- E0. rewrite !conversion_step_2_3_eq by assumption.
    rewrite HP. f_equal. apply tabulate_ext. intros v Hv.
    destruct (vget_known_labels_only P v Hv) as (-> & -> & _).
    unfold tumour_indicator. rewrite vget_np_map by (rewrite Hs; exact Hv).
    destruct (vget 0 A v =? 0); reflexivity. }
  assert (EAT : AT_of (known_labels_only P) = AT_of P).
  { unfold AT_of, np_map. rewrite HP. apply tabulate_ext. intros v Hv.
    destruct (vget_known_labels_only P v Hv) as (_ & _ & ->). reflexivity. }
  assert (E1' : conversion_step_4 fill (known_labels_only P) M0 = Ok M1).
  { rewrite <- E1. destruct fill; [|reflexivity].
    rewrite !conversion_step_4_eq by congruence.
    rewrite HP, EAT. f_equal. apply tabulate_ext. intros v Hv.
    destruct (vget_known_labels_only P v Hv) as (_ & _ & ->). reflexivity. }
  assert (E2' : conversion_step_5_6 T (known_labels_only P) M1 = Ok M2).
  { rewrite <- E2. rewrite !conversion_step_5_6_eq by congruence.
    rewrite HP. f_equal. apply tabulate_ext. intros v Hv. cbv zeta.
    destruct (vget_known_labels_only P v Hv) as (_ & -> & _). reflexivity. }
  assert (E3' : conversion_step_7 (known_labels_only P) M2 = Ok D).
  { rewrite <- E3. rewrite !conversion_step_7_eq by congruence.
    rewrite HP. f_equal. apply tabulate_ext. intros v Hv.
    destruct (vget_known_labels_only P v Hv) as (_ & _ & ->). reflexivity. }
  rewrite ED. unfold convert_data_brats2021_to_twolabel.
  rewrite E0'. simpl bind. rewrite E1'. simpl bind. rewrite E2'. simpl bind.
  exact E3'.
Qed.

(** The three clusters, unchanged by the reduction. *)
Lemma conversion_reads_known_labels_only_witness :
  shape tumour_2x3x4 = shape clusters_2x3x4 /\
  convert_data_brats2021_to_twolabel (known_labels_only clusters_2x3x4)
    (tumour_indicator tumour_2x3x4) 2 true
  = convert_data_brats2021_to_twolabel clusters_2x3x4 tumour_2x3x4 2 true.
Proof.
  split; [reflexivity|].
  exact (conversion_reads_known_labels_only clusters_2x3x4 tumour_2x3x4 2 true eq_refl).
Defined.

(** ** The shape of the output *)

Lemma np_map2_wf A B C (da : A) (db : B) (f : A -> B -> C) a b c :
  np_map2 da db f a b = Ok c ->
  wf c /\ broadcast_shapes (shape a) (shape b) = Some (shape c).
Proof.
  unfold np_map2. destruct (broadcast_shapes (shape a) (shape b)) as [u|];
    [|discriminate].
  intros E. injection E as <-. split; [apply wf_tabulate | reflexivity].
Qed.

(** X9. A converted volume is well formed (its buffer has one element per
    voxel of its shape) and its shape is the shape the two inputs broadcast
    to; for inputs of one shape it is that shape. *)
Theorem converted_volume_shape (P A D : ndarray Z) (T : Z) (fill : bool)
    (E : convert_data_brats2021_to_twolabel P A T fill = Ok D) :
  wf D /\
  broadcast_shapes (shape A) (shape P) = Some (shape D) /\
  (shape A = shape P -> shape D = shape P).
Proof.
  assert (Hwf : wf D).
  { rewrite convert_data_via_NE_out in E.
    destruct (NE_out_of P A T fill) as [M2|e]; [|discriminate].
    simpl in E. unfold conversion_step_7 in E.
    apply np_map2_wf in E. tauto. }
  pose proof (convert_data_shapes P A T fill) as Hsh.
  destruct (broadcast_shapes (shape A) (shape P)) as [u|] eqn:Eb; [|congruence].
  destruct Hsh as (D' & E' & Hu). assert (D' = D) by congruence. subst D'.
  split; [exact Hwf|]. split; [congruence|].
  intros Hs. rewrite Hs, broadcast_shapes_same in Eb. congruence.
Qed.

(** The volume broadcast from shapes (2,1,1) and (1,1,1). *)
Lemma converted_volume_shape_witness :
  convert_data_brats2021_to_twolabel primary_2x1x1 auxiliary_1x1x1 50 true
  = Ok (mk_ndarray (2, 1, 1)%nat [0; 1]) /\
  wf (mk_ndarray (2, 1, 1)%nat [0; 1]) /\
  broadcast_shapes (shape auxiliary_1x1x1) (shape primary_2x1x1)
  = Some (2, 1, 1)%nat.
Proof.
  assert (E : convert_data_brats2021_to_twolabel primary_2x1x1 auxiliary_1x1x1 50 true
              = Ok (mk_ndarray (2, 1, 1)%nat [0; 1])) by reflexivity.
  split; [exact E|].
  destruct (converted_volume_shape primary_2x1x1 auxiliary_1x1x1 _ 50 true E)
    as (Hwf & Hb & _).
  split; [exact Hwf | exact Hb].
Defined.

(** ** Files *)

Lemma astype_uint8_id (a : ndarray Z) :
  Forall uint8_valued (data a) -> astype np_uint8 a = a.
Proof.
  destruct a as [sh l]. simpl. intros H. f_equal.
  induction H as [|x l Hx Hl IH]; simpl; [reflexivity|].
  rewrite IH. rewrite Z.mod_small by exact Hx. reflexivity.
Qed.

Lemma two_label_uint8 l : Forall two_label_valued l -> Forall uint8_valued l.
Proof.
  apply Forall_impl. unfold two_label_valued, uint8_valued. intros x Hx. lia.
Qed.

(** A saved image is found under every spelling of its path. *)
Lemma save_same path img (fs : filesystem) q :
  realpath fs q = realpath fs path -> save path img fs q = Some img.
Proof.
  intros Hq. unfold lookup, save, store. cbn [stored realpath].
  rewrite Hq, String.eqb_refl. reflexivity.
Qed.

(** Saving leaves the other files as they are. *)
Lemma save_other path img (fs : filesystem) q :
  realpath fs q <> realpath fs path -> save path img fs q = fs q.
Proof.
  intros Hq. unfold lookup, save, store. cbn [stored realpath].
  rewrite (proj2 (String.eqb_neq _ _) Hq). reflexivity.
Qed.

Lemma write_nifti_as_given template vol path dt (fs : filesystem) :
  saved_as_given fs path ->
  write_nifti template vol path (Some dt) fs
  = (Ok tt, save path (mk_image (astype dt vol) (affine template)
                         (set_data_dtype dt (header template))) fs).
Proof. intros Hs. unfold write_nifti. rewrite Hs. reflexivity. Qed.

Lemma write_nifti_raises template vol path dt (fs : filesystem) e :
  nib_save fs path (mk_image (astype dt vol) (affine template)
                      (set_data_dtype dt (header template))) = Raise e ->
  write_nifti template vol path (Some dt) fs = (Raise e, fs).
Proof. intros He. unfold write_nifti. rewrite He. reflexivity. Qed.

(** X10. When an input file is missing the file conversion raises
    [FileNotFoundError] and leaves the files as they were: nothing is
    written.  The primary file is looked up first. *)
Theorem missing_input_file_raises (bf hf out : string) (T : Z) (fill : bool)
    (fs : filesystem) (Hmiss : fs bf = None \/ fs hf = None) :
  convert_file_brats2021_to_twolabel bf hf out T fill fs
  = (Raise FileNotFoundError, fs).
Proof.
  unfold convert_file_brats2021_to_twolabel, io_bind, read_nifti.
  destruct (fs bf) as [bi|]; [|reflexivity].
  destruct Hmiss as [Hm|Hm]; [discriminate Hm|]. rewrite Hm. reflexivity.
Qed.

(** No file at all. *)
Lemma missing_input_file_raises_witness :
  convert_file_brats2021_to_twolabel "brats.nii.gz" "hdglio.nii.gz" "out.nii.gz"
    50 true no_files
  = (Raise FileNotFoundError, no_files).
Proof.
  exact (missing_input_file_raises "brats.nii.gz" "hdglio.nii.gz" "out.nii.gz"
           50 true no_files (or_introl eq_refl)).
Defined.

(** X11. Writing a volume of [uint8] values: when [nib.save] raises, the
    files are as they were; when [nib.save] writes the image to the file the
    path names, reading the file back under any spelling of the path gives
    the volume, with the affine of the template image and its header set to
    [uint8], and the other files are as before. *)
Theorem write_then_read (template : Nifti1Image) (vol : ndarray Z)
    (path : string) (fs : filesystem)
    (Hrange : Forall uint8_valued (data vol)) :
  let image_out := mk_image vol (affine template)
                     (set_data_dtype np_uint8 (header template)) in
  (forall e, nib_save fs path image_out = Raise e ->
             write_nifti template vol path (Some np_uint8) fs = (Raise e, fs)) /\
  (saved_as_given fs path ->
   exists fs',
     write_nifti template vol path (Some np_uint8) fs = (Ok tt, fs') /\
     (forall q, realpath fs q = realpath fs path ->
        read_nifti q (Some np_uint8) fs' = (Ok (vol, image_out), fs')) /\
     (forall q, realpath fs q <> realpath fs path -> fs' q = fs q)).
Proof.
  cbv zeta. split.
  - intros e He. apply write_nifti_raises.
    rewrite astype_uint8_id by exact Hrange. exact He.
  - intros Hs. rewrite (write_nifti_as_given _ _ _ _ _ Hs).
    rewrite astype_uint8_id by exact Hrange.
    eexists. split; [reflexivity|]. split.
    + intros q Hq. unfold read_nifti. rewrite (save_same _ _ _ _ Hq).
      cbn [dataobj affine header].
      rewrite astype_uint8_id by exact Hrange. reflexivity.
    + intros q Hq. apply save_other; exact Hq.
Qed.

(** The three clusters written and read back. *)
Lemma write_then_read_witness :
  Forall uint8_valued (data clusters_2x3x4) /\
  saved_as_given no_files "out.nii.gz" /\
  exists fs',
    write_nifti (mk_image tumour_2x3x4 "" (mk_header np_float64 ""))
      clusters_2x3x4 "out.nii.gz" (Some np_uint8) no_files = (Ok tt, fs') /\
    read_nifti "out.nii.gz" (Some np_uint8) fs'
    = (Ok (clusters_2x3x4,
           mk_image clusters_2x3x4 "" (mk_header np_uint8 "")), fs').
Proof.
  assert (Hr : Forall uint8_valued (data clusters_2x3x4)).
  { simpl. repeat constructor; unfold uint8_valued; lia. }
  assert (Hs : saved_as_given no_files "out.nii.gz") by (intros img; reflexivity).
  split; [exact Hr|]. split; [exact Hs|].
  destruct (proj2 (write_then_read
                     (mk_image tumour_2x3x4 "" (mk_header np_float64 ""))
                     clusters_2x3x4 "out.nii.gz" no_files Hr) Hs)
    as (fs' & Ew & Er & _).
  exists fs'. split; [exact Ew|]. apply Er. reflexivity.
Defined.

(** X12. When both files exist and their volumes convert, the file
    conversion ends in [nib.save]: when that raises, the files are as they
    were; when it writes the image to the file the output path names, that
    file then holds the converted volume, with the affine of the primary
    image and its header set to [uint8], and the other files are as before.
    The volume written is the one converted with the enclosure filling
    enabled, whatever [at_fill] the caller passed. *)
Theorem convert_file_writes_converted_volume (bf hf out : string) (T : Z)
    (fill : bool) (fs : filesystem) (bi hi : Nifti1Image) (D : ndarray Z)
    (Hb : fs bf = Some bi) (Hh : fs hf = Some hi)
    (E : convert_data_brats2021_to_twolabel
           (astype np_uint8 (dataobj bi)) (astype np_uint8 (dataobj hi)) T true
         = Ok D) :
  let image_out := mk_image D (affine bi) (set_data_dtype np_uint8 (header bi)) in
  (forall e, nib_save fs out image_out = Raise e ->
             convert_file_brats2021_to_twolabel bf hf out T fill fs
             = (Raise e, fs)) /\
  (saved_as_given fs out ->
   exists fs',
     convert_file_brats2021_to_twolabel bf hf out T fill fs = (Ok tt, fs') /\
     fs' out = Some image_out /\
     forall q, realpath fs q <> realpath fs out -> fs' q = fs q).
Proof.
  cbv zeta.
  assert (Hid : astype np_uint8 D = D).
  { apply astype_uint8_id, two_label_uint8. apply (convert_data_range _ _ _ _ _ E). }
  assert (Ec : convert_file_brats2021_to_twolabel bf hf out T fill fs
               = write_nifti (mk_image (dataobj bi) (affine bi)
                                (set_data_dtype np_uint8 (header bi)))
                   D out (Some np_uint8) fs).
  { unfold convert_file_brats2021_to_twolabel, io_bind, read_nifti, io_lift.
    rewrite Hb, Hh, E. reflexivity. }
  rewrite Ec. split.
  - intros e He. apply write_nifti_raises. rewrite Hid. exact He.
  - intros Hs. rewrite (write_nifti_as_given _ _ _ _ _ Hs), Hid.
    eexists. split; [reflexivity|]. split.
    + apply save_same. reflexivity.
    + intros q Hq. apply save_other; exact Hq.
Qed.

(** The shell converted from its files. *)
Lemma convert_file_writes_converted_volume_witness :
  saved_as_given shell_files "out.nii.gz" /\
  exists fs',
    convert_file_brats2021_to_twolabel "brats.nii.gz" "hdglio.nii.gz" "out.nii.gz"
      0 false shell_files = (Ok tt, fs') /\
    fs' "out.nii.gz"%string
    = Some (mk_image pocket_removed "" (mk_header np_uint8 "")) /\
    forall q, realpath shell_files q <> realpath shell_files "out.nii.gz" ->
              fs' q = shell_files q.
Proof.
  assert (E : convert_data_brats2021_to_twolabel
                (astype np_uint8 shell_3x3x3) (astype np_uint8 tumour_3x3x3) 0 true
              = Ok pocket_removed) by (vm_compute; reflexivity).
  assert (Hs : saved_as_given shell_files "out.nii.gz")
    by (intros img; reflexivity).
  split; [exact Hs|].
  exact (proj2 (convert_file_writes_converted_volume
                  "brats.nii.gz" "hdglio.nii.gz" "out.nii.gz" 0 false shell_files
                  (mk_image shell_3x3x3 "" (mk_header np_float64 ""))
                  (mk_image tumour_3x3x3 "" (mk_header np_float64 ""))
                  pocket_removed eq_refl eq_refl E) Hs).
Defined.

(** ** Command line *)

Example int_of_padded_literal : py_int " 5 " = Some 5.
Proof. reflexivity. Qed.

Example int_of_grouped_literal : py_int "1_000" = Some 1000.
Proof. reflexivity. Qed.

Example int_of_signed_literal : py_int " -12" = Some (-12).
Proof. reflexivity. Qed.

Example int_refuses_double_underscore : py_int "1__0" = None.
Proof. reflexivity. Qed.

Example int_refuses_inner_space : py_int "1 0" = None.
Proof. reflexivity. Qed.

Example int_refuses_point : py_int "1.5" = None.
Proof. reflexivity. Qed.

(** Positional arguments are collected in order until an option comes. *)
Lemma parse_loop_positionals l rest acc T fill :
  Forall (fun s => positional s = true) l ->
  parse_loop (l ++ rest) acc T fill = parse_loop rest (rev l ++ acc) T fill.
Proof.
  intros H. revert acc. induction H as [|a l Ha Hl IH]; intros acc; [reflexivity|].
  destruct (positional_inv a Ha) as (E1 & E2 & E3).
  simpl app. cbn [parse_loop]. rewrite E1, E2, E3. rewrite IH.
  simpl rev. rewrite <- app_assoc. reflexivity.
Qed.

(** X13. Without options the command line must consist of exactly three
    arguments: they become the three paths, the threshold is 50 and the
    enclosure filling is on, and [main] runs the file conversion on them.
    Fewer or more arguments make argparse exit, and [main] touches no
    file. *)
Theorem parse_args_positionals_only (l : list string)
    (Hpos : Forall (fun s => positional s = true) l) :
  parse_args l
  = match l with
    | [b; h; o] => Ok (mk_namespace b h o 50 true)
    | _ => Raise SystemExit
    end /\
  forall fs,
    main l fs
    = match l with
      | [b; h; o] => convert_file_brats2021_to_twolabel b h o 50 true fs
      | _ => (Raise SystemExit, fs)
      end.
Proof.
  assert (E : parse_loop l [] 50 true = Ok (l, 50, true)).
  { rewrite <- (app_nil_r l) at 1. rewrite parse_loop_positionals by exact Hpos.
    simpl. rewrite app_nil_r, rev_involutive. reflexivity. }
  assert (Ep : parse_args l
               = match l with
                 | [b; h; o] => Ok (mk_namespace b h o 50 true)
                 | _ => Raise SystemExit
                 end).
  { unfold parse_args. rewrite E. simpl bind.
    destruct l as [|b [|h [|o [|x l]]]]; reflexivity. }
  split; [exact Ep|]. intros fs. unfold main, io_bind, io_lift. rewrite Ep.
  destruct l as [|b [|h [|o [|x l]]]]; reflexivity.
Qed.

(** Three paths. *)
Lemma parse_args_positionals_only_witness :
  parse_args ["brats.nii.gz"; "hdglio.nii.gz"; "out.nii.gz"]%string
  = Ok (mk_namespace "brats.nii.gz" "hdglio.nii.gz" "out.nii.gz" 50 true).
Proof.
  refine (proj1 (parse_args_positionals_only
                   ["brats.nii.gz"; "hdglio.nii.gz"; "out.nii.gz"]%string _)).
  repeat constructor.
Defined.

(** X14. The value of [--cluster_size_threshold] goes through [int].  For a
    plain value that argparse takes as an argument: a decimal literal, with
    white space around it, a sign and single underscores between digits
    allowed, becomes the threshold, and any other value makes argparse exit;
    the option may come before or after the paths.  An option given as the
    last argument, without a value, makes argparse exit. *)
Theorem threshold_option_parsed (b h o s : string)
    (Hb : positional b = true) (Hh : positional h = true)
    (Ho : positional o = true) (Hs : option_like s = false)
    (Hplain : plain_value s = true) :
  let parsed := match py_int s with
                | Some n => Ok (mk_namespace b h o n true)
                | None => Raise SystemExit
                end in
  parse_args [b; h; o; "--cluster_size_threshold"; s]%string = parsed /\
  parse_args ["--cluster_size_threshold"; s; b; h; o]%string = parsed /\
  parse_args [b; h; o; "--cluster_size_threshold"]%string = Raise SystemExit /\
  parse_args [b; h; o; "--at_fill"]%string = Raise SystemExit.
Proof.
  destruct (positional_inv b Hb) as (B1 & B2 & B3).
  destruct (positional_inv h Hh) as (H1 & H2 & H3).
  destruct (positional_inv o Ho) as (O1 & O2 & O3).
  cbv zeta. unfold parse_args. cbn [parse_loop].
  rewrite B1, B2, B3, H1, H2, H3, O1, O2, O3, Hs. cbn [String.eqb Ascii.eqb Bool.eqb].
  destruct (py_int s) as [n|]; simpl; repeat split; reflexivity.
Qed.

(** Threshold 1_000 with a blank in front, after the paths. *)
Lemma threshold_option_parsed_witness :
  parse_args ["brats.nii.gz"; "hdglio.nii.gz"; "out.nii.gz";
              "--cluster_size_threshold"; " 1_000"]%string
  = Ok (mk_namespace "brats.nii.gz" "hdglio.nii.gz" "out.nii.gz" 1000 true).
Proof.
  exact (proj1 (threshold_option_parsed "brats.nii.gz" "hdglio.nii.gz" "out.nii.gz"
                  " 1_000" eq_refl eq_refl eq_refl eq_refl eq_refl)).
Defined.

(** X15. On a plain command line [main] is all or nothing: when it raises,
    the files are as they were; when it returns, the command line parsed,
    and if [nib.save] writes to the file the output path names, that file
    holds a volume whose voxels are 0, 1 or 2 and the other files are as
    before. *)
Theorem main_all_or_nothing (argv : list string) (fs fs' : filesystem)
    (r : result unit)
    (Hplain : forallb plain_argument argv = true)
    (E : main argv fs = (r, fs')) :
  match r with
  | Raise _ => fs' = fs
  | Ok _ =>
      exists args,
        parse_args argv = Ok args /\
        (saved_as_given fs (output_file args) ->
         (exists img,
            fs' (output_file args) = Some img /\
            Forall two_label_valued (data (dataobj img))) /\
         forall q, realpath fs q <> realpath fs (output_file args) ->
                   fs' q = fs q)
  end.
Proof.
  unfold main, io_bind, io_lift in E.
  destruct (parse_args argv) as [args|e]; [|injection E as <- <-; reflexivity].
  unfold convert_file_brats2021_to_twolabel, io_bind, read_nifti, io_lift in E.
  destruct (fs (brats_file args)) as [bi|]; [|injection E as <- <-; reflexivity].
  destruct (fs (hdglio_file args)) as [hi|]; [|injection E as <- <-; reflexivity].
  destruct (convert_data_brats2021_to_twolabel _ _ _ _) as [D|e] eqn:ED;
    [|injection E as <- <-; reflexivity].
  pose proof (convert_data_range _ _ _ _ _ ED) as Hr.
  assert (Hid : astype np_uint8 D = D)
    by (apply astype_uint8_id, two_label_uint8; exact Hr).
  destruct r as [u|e].
  - exists args. split; [reflexivity|]. intros Hs.
    rewrite (write_nifti_as_given _ _ _ _ _ Hs), Hid in E.
    injection E as E. subst fs'. split.
    + eexists. split; [apply save_same; reflexivity | exact Hr].
    + intros q Hq. apply save_other; exact Hq.
  - unfold write_nifti in E.
    destruct (nib_save fs (output_file args) _) as [writes|e'];
      [discriminate E|]. injection E as _ <-. reflexivity.
Qed.

(** The shell converted from the command line. *)
Lemma main_all_or_nothing_witness :
  forallb plain_argument ["brats.nii.gz"; "hdglio.nii.gz"; "out.nii.gz"]%string
  = true /\
  exists args img,
    parse_args ["brats.nii.gz"; "hdglio.nii.gz"; "out.nii.gz"]%string = Ok args /\
    snd (main ["brats.nii.gz"; "hdglio.nii.gz"; "out.nii.gz"]%string shell_files)
      (output_file args) = Some img /\
    Forall two_label_valued (data (dataobj img)).
Proof.
  split; [reflexivity|].
  destruct (main_all_or_nothing
              ["brats.nii.gz"; "hdglio.nii.gz"; "out.nii.gz"]%string shell_files
              (snd (main ["brats.nii.gz"; "hdglio.nii.gz"; "out.nii.gz"]%string
                      shell_files))
              (Ok tt) eq_refl eq_refl) as (args & Ep & Hout).
  injection Ep as <-.
  destruct (Hout (fun img => eq_refl)) as ((img & Eo & Hr) & _).
  eexists _, img. split; [reflexivity|]. split; [exact Eo | exact Hr].
Defined.
